(** * Versioned writes and path resolution of the participant file editor

    A shallow embedding of the Google Drive operations of [app.py]
    ([find_folder_by_path], [find_file_in_folder], [download_csv_content],
    [get_next_version_number], [upload_versioned_csv]), of its allow-list
    check ([get_authorized_users], [check_user_authorization]) and of the
    search branch of [main], with the properties that the design document
    states about them and further properties read off the code.

    Python strings are [string]s, Python integers are [Z], the remote store
    is an explicit [World] threaded through a state-and-exception monad, and
    the libraries the code calls without defining them (pandas, the media
    wrapper of the Drive client) are Section variables.

    Texts are ASCII: the string primitives below are Python's on strings
    whose characters are all below 128, and the search expressions are kept
    structured, which is what the code's spliced text means when the names
    spliced in hold no quote and no backslash.  The statements that depend
    on either say so in their hypotheses ([Py.isascii], [quotable]). *)

From Stdlib Require Import ZArith List String Ascii Bool Lia PeanoNat.
From Stdlib Require Import DecimalString DecimalZ.
Import ListNotations.
Open Scope Z_scope.
Open Scope string_scope.

(** ** Python string and integer primitives *)

Module Py.

(** ['.' in s] for a one-character needle. *)
Fixpoint has_char (c : ascii) (s : string) : bool :=
  match s with
  | EmptyString => false
  | String d s' => Ascii.eqb d c || has_char c s'
  end.

(** [sub in s]: substring test. *)
Fixpoint contains (sub s : string) : bool :=
  String.prefix sub s ||
  match s with
  | EmptyString => false
  | String _ s' => contains sub s'
  end.

(** [s.rsplit(sep, 1)] when it yields two parts: the split is at the LAST
    occurrence of [sep]; [None] when [sep] does not occur (Python then
    returns a one-element list). *)
Fixpoint rsplit1 (sep : ascii) (s : string) : option (string * string) :=
  match s with
  | EmptyString => None
  | String c s' =>
      match rsplit1 sep s' with
      | Some (a, b) => Some (String c a, b)
      | None => if Ascii.eqb c sep then Some (EmptyString, s') else None
      end
  end.

(** [s.replace(old, '')]: every non-overlapping occurrence of [old], found
    left to right, is removed.  [skip] counts the characters of the current
    occurrence still to drop. *)
Fixpoint remove_from (old : string) (skip : nat) (s : string) : string :=
  match s with
  | EmptyString => EmptyString
  | String c s' =>
      match skip with
      | S k => remove_from old k s'
      | O => if String.prefix old s
             then remove_from old (String.length old - 1) s'
             else String c (remove_from old O s')
      end
  end.

Definition remove (s old : string) : string :=
  match old with
  | EmptyString => s
  | _ => remove_from old 0 s
  end.

(** Text within ASCII ([s.isascii()]): every character is below 128. *)
Fixpoint isascii (s : string) : bool :=
  match s with
  | EmptyString => true
  | String c s' => (nat_of_ascii c <? 128)%nat && isascii s'
  end.

(** Whitespace that [str.strip()] removes from ASCII text: tab to carriage
    return, the separators 0x1c to 0x1f, and the space. *)
Definition is_space (c : ascii) : bool :=
  let n := nat_of_ascii c in
  ((9 <=? n) && (n <=? 13) || (28 <=? n) && (n <=? 32))%nat.

(** Whitespace that [int()] skips around the number in ASCII text: tab to
    carriage return, and the space.  The separators 0x1c to 0x1f are not
    skipped: [int] of a digit followed by 0x1c raises [ValueError]. *)
Definition is_int_space (c : ascii) : bool :=
  let n := nat_of_ascii c in
  ((9 <=? n) && (n <=? 13) || (n =? 32))%nat.

Definition digit_of (c : ascii) : option Z :=
  let n := Z.of_nat (nat_of_ascii c) in
  if ((48 <=? n) && (n <=? 57))%Z then Some (n - 48) else None.

Fixpoint lstrip (s : string) : string :=
  match s with
  | EmptyString => EmptyString
  | String c s' => if is_space c then lstrip s' else s
  end.

Fixpoint rstrip (s : string) : string :=
  match s with
  | EmptyString => EmptyString
  | String c s' =>
      match rstrip s' with
      | EmptyString => if is_space c then EmptyString else String c EmptyString
      | r => String c r
      end
  end.

(** [s.strip()] for ASCII text. *)
Definition strip (s : string) : string := rstrip (lstrip s).

(** Decimal digits with single underscores allowed between digits
    ([int('1_000') = 1000]); [prev] is true right after a digit. *)
Fixpoint parse_digits (acc : Z) (prev : bool) (s : string) : option Z :=
  match s with
  | EmptyString => if prev then Some acc else None
  | String c s' =>
      match digit_of c with
      | Some d => parse_digits (acc * 10 + d) true s'
      | None =>
          if Ascii.eqb c "_" && prev then parse_digits acc false s' else None
      end
  end.

(** What [int()] reads once the whitespace around the number is skipped. *)
Fixpoint skip_leading (s : string) : string :=
  match s with
  | EmptyString => EmptyString
  | String c s' => if is_int_space c then skip_leading s' else s
  end.

Fixpoint skip_trailing (s : string) : string :=
  match s with
  | EmptyString => EmptyString
  | String c s' =>
      match skip_trailing s' with
      | EmptyString =>
          if is_int_space c then EmptyString else String c EmptyString
      | r => String c r
      end
  end.

(** [int(s)] for ASCII text; [None] stands for the [ValueError]. *)
Definition int (s : string) : option Z :=
  match skip_trailing (skip_leading s) with
  | String "+" r => parse_digits 0 false r
  | String "-" r => option_map Z.opp (parse_digits 0 false r)
  | t => parse_digits 0 false t
  end.

(** [str(n)] and [f"{n}"] for an integer. *)
Definition str (n : Z) : string := NilZero.string_of_int (Z.to_int n).

(** [s.lower()] for ASCII text: [A]-[Z] become [a]-[z]. *)
Definition lower_char (c : ascii) : ascii :=
  let n := nat_of_ascii c in
  if ((65 <=? n) && (n <=? 90))%nat then ascii_of_nat (n + 32) else c.

Fixpoint lower (s : string) : string :=
  match s with
  | EmptyString => EmptyString
  | String c s' => String (lower_char c) (lower s')
  end.

End Py.

(** ** The store: Google Drive as the code uses it *)

(** A Drive file or folder, with the attributes the code reads or queries. *)
Record DriveFile := mkFile {
  f_id : string;
  f_name : string;
  f_parents : list string;
  f_mimeType : string;
  f_trashed : bool;
  f_webViewLink : string;
  f_content : string
}.

(** The [q=] search expressions the code builds are conjunctions of these
    terms.  The code splices names and ids into the text of the expression,
    between quotes and without escaping; the embedding keeps the expression
    structured.  The two agree when what is spliced in is [quotable]; a name
    with a quote or a backslash in it changes the text's meaning and is
    outside the model. *)
Inductive Term :=
| NameIs (name : string)           (* name='...' *)
| NameContains (part : string)     (* name contains '...' *)
| InParents (id : string)          (* '...' in parents *)
| MimeTypeIs (mime : string)       (* mimeType='...' *)
| TrashedIs (b : bool).            (* trashed=false *)

Definition Query := list Term.

(** A text that stands between the quotes of a search expression as
    itself: it holds no quote and no backslash. *)
Definition quotable (s : string) : bool :=
  negb (Py.has_char "'" s) && negb (Py.has_char "\" s).

Definition term_holds (f : DriveFile) (t : Term) : bool :=
  match t with
  | NameIs name => String.eqb (f_name f) name
  | NameContains part => Py.contains part (f_name f)
  | InParents id => existsb (String.eqb id) (f_parents f)
  | MimeTypeIs mime => String.eqb (f_mimeType f) mime
  | TrashedIs b => Bool.eqb (f_trashed f) b
  end.

Definition matches (q : Query) (f : DriveFile) : bool :=
  forallb (term_holds f) q.

(** Requests of the Drive [files] resource.  The application only issues the
    first three; [FilesUpdate] and [FilesDelete] are the requests that write
    to or remove an existing file. *)
Inductive Request :=
| FilesList (q : Query) (pageSize : nat)
| FilesGetMedia (fileId : string)
| FilesCreate (name : string) (parents : list string) (content : string)
| FilesUpdate (fileId : string) (content : string)
| FilesDelete (fileId : string).

Definition writes_existing (r : Request) : bool :=
  match r with
  | FilesUpdate _ _ | FilesDelete _ => true
  | _ => false
  end.

Inductive Exn :=
| TransportError            (* the HTTP request failed *)
| NameExists                (* a store that refuses a second file of a name *)
| FileNotFound              (* get_media on an unknown id *)
| TypeError (msg : string)
| ParserError.              (* pandas could not read the bytes *)

Definition exn_str (e : Exn) : string :=
  match e with
  | TransportError => "transport error"
  | NameExists => "name already exists"
  | FileNotFound => "file not found"
  | TypeError msg => msg
  | ParserError => "parser error"
  end.

(** The state of the world around one run of the application:
    - [files]: the store's content, in the order the store lists it;
    - [unique_names]: whether the store refuses to create a file whose name
      is already used by a live file of the same folder (Drive itself does
      not; the design document's store does);
    - [faults]: for the coming requests in order, whether the transport
      fails (an exhausted list means no more failures);
    - [calls]: the requests issued so far, oldest first;
    - [errors]: the messages shown with [st.error], oldest first. *)
Record World := mkWorld {
  files : list DriveFile;
  unique_names : bool;
  faults : list bool;
  calls : list Request;
  errors : list string
}.

(** State and exceptions: a computation returns a value or raises, and
    leaves a world behind either way. *)
Definition M (A : Type) : Type := World -> (Exn + A) * World.

Definition ret {A} (a : A) : M A := fun w => (inr a, w).

Definition raise {A} (e : Exn) : M A := fun w => (inl e, w).

Definition bind {A B} (m : M A) (k : A -> M B) : M B :=
  fun w => match m w with
           | (inr a, w') => k a w'
           | (inl e, w') => (inl e, w')
           end.

(** [try: body  except Exception as e: handler e] *)
Definition try_except {A} (body : M A) (handler : Exn -> M A) : M A :=
  fun w => match body w with
           | (inr a, w') => (inr a, w')
           | (inl e, w') => handler e w'
           end.

Notation "x <- m ;; k" := (bind m (fun x => k))
  (at level 61, m at next level, right associativity).
Notation "m ;;; k" := (bind m (fun _ => k))
  (at level 61, right associativity).

Definition st_error (msg : string) : M unit :=
  fun w => (inr tt, mkWorld (files w) (unique_names w) (faults w) (calls w)
                            (errors w ++ [msg])%list).

(** [.execute()] sends the request: it is recorded, and the transport
    fails when the fault plan says so. *)
Definition send (r : Request) : M unit :=
  fun w =>
    let cs := (calls w ++ [r])%list in
    match faults w with
    | true :: fs => (inl TransportError,
                     mkWorld (files w) (unique_names w) fs cs (errors w))
    | false :: fs => (inr tt, mkWorld (files w) (unique_names w) fs cs (errors w))
    | [] => (inr tt, mkWorld (files w) (unique_names w) [] cs (errors w))
    end.

(** [service.files().list(q=..., pageSize=...).execute().get('files', [])]:
    the first page of the matching files. *)
Definition files_list (q : Query) (pageSize : nat) : M (list DriveFile) :=
  send (FilesList q pageSize) ;;;
  fun w => (inr (firstn pageSize (filter (matches q) (files w))), w).

(** An id no file of the store has: longer than every id in use. *)
Definition fresh_id (fs : list DriveFile) : string :=
  String "f" (fold_right (fun f acc => String.append (f_id f) acc) "" fs).

Definition view_link (id : string) : string :=
  "https://drive.google.com/file/d/" ++ id ++ "/view".

Definition name_taken (name : string) (parents : list string)
    (fs : list DriveFile) : bool :=
  existsb (fun f => String.eqb (f_name f) name
                    && negb (f_trashed f)
                    && existsb (fun p => existsb (String.eqb p) (f_parents f))
                               parents) fs.

(** [service.files().create(body={'name':..,'parents':..}, media_body=..)
    .execute()]: a new file is appended; nothing else changes. *)
Definition files_create (name : string) (parents : list string)
    (mime content : string) : M DriveFile :=
  send (FilesCreate name parents content) ;;;
  fun w =>
    if unique_names w && name_taken name parents (files w)
    then (inl NameExists, w)
    else
      let id := fresh_id (files w) in
      let f := mkFile id name parents mime false (view_link id) content in
      (inr f, mkWorld (files w ++ [f])%list (unique_names w) (faults w)
                      (calls w) (errors w)).

Definition lookup_id (id : string) (fs : list DriveFile) : option DriveFile :=
  find (fun f => String.eqb (f_id f) id) fs.

(** The world after a request was sent, after a message was shown, and
    after a sequence of requests. *)
Definition sent (r : Request) (w : World) : World :=
  mkWorld (files w) (unique_names w) (tl (faults w)) (calls w ++ [r])%list
          (errors w).

Definition shown (msg : string) (w : World) : World :=
  mkWorld (files w) (unique_names w) (faults w) (calls w)
          (errors w ++ [msg])%list.

Definition after (rs : list Request) (w : World) : World :=
  fold_left (fun w' r => sent r w') rs w.

(** The file that a create request makes in a store holding [fs], and the
    world once it is stored. *)
Definition created_file (fs : list DriveFile) (name : string)
    (parents : list string) (mime content : string) : DriveFile :=
  mkFile (fresh_id fs) name parents mime false (view_link (fresh_id fs))
         content.

Definition stored (f : DriveFile) (w : World) : World :=
  mkWorld (files w ++ [f])%list (unique_names w) (faults w) (calls w)
          (errors w).


(** ** The application: [app.py] *)

Definition CSV_FILENAME : string := "part4_nightsummary_sleep_cleaned.csv".

Definition folder_mime : string := "application/vnd.google-apps.folder".

(** What one turn of a [for] body inside a function does: leave the
    function with a value, or go on with the loop variable updated. *)
Inductive Flow (R A : Type) :=
| Return (r : R)
| Next (a : A).
Arguments Return {R A} r.
Arguments Next {R A} a.

(** [find_folder_by_path(service, root_folder_id, path_components)] *)
Fixpoint find_folder_by_path (current_folder_id : string)
    (path_components : list string) : M (option string) :=
  match path_components with
  | [] => ret (Some current_folder_id)
  | folder_name :: rest =>
      let query := [NameIs folder_name; InParents current_folder_id;
                    MimeTypeIs folder_mime; TrashedIs false] in
      step <- try_except
                (found <- files_list query 10 ;;
                 match found with
                 | [] => ret (Return None)
                 | first :: _ => ret (Next (f_id first))
                 end)
                (fun e =>
                   st_error ("Error navigating to folder '" ++ folder_name
                             ++ "': " ++ exn_str e) ;;;
                   ret (Return None)) ;;
      match step with
      | Return r => ret r
      | Next id => find_folder_by_path id rest
      end
  end.

(** [find_file_in_folder(service, folder_id, filename)] *)
Definition find_file_in_folder (folder_id filename : string)
    : M (option DriveFile) :=
  let query := [NameIs filename; InParents folder_id; TrashedIs false] in
  try_except
    (found <- files_list query 10 ;;
     match found with
     | first :: _ => ret (Some first)
     | [] => ret None
     end)
    (fun e =>
       st_error ("Error finding file '" ++ filename ++ "': " ++ exn_str e) ;;;
       ret None).

(** The split of a base filename that both [get_next_version_number] and
    [upload_versioned_csv] start with:
    [if '.' in base_filename: name_part, ext = base_filename.rsplit('.', 1)
     else: name_part = base_filename; ext = ''].
    [true] in the first component records that the [if] branch was taken. *)
Definition split_base (base_filename : string) : bool * string * string :=
  if Py.has_char "." base_filename then
    match Py.rsplit1 "." base_filename with
    | Some (name_part, ext) => (true, name_part, ext)
    | None => (true, base_filename, "")
    end
  else (false, base_filename, "").

(** The text that [int()] is applied to for one listed file name:
    [filename.replace(name_part + '_v', '').replace('.' + ext, '')] when
    [ext] is not empty, the first replacement alone otherwise. *)
Definition version_str (name_part ext filename : string) : string :=
  match ext with
  | EmptyString => Py.remove filename (name_part ++ "_v")
  | _ => Py.remove (Py.remove filename (name_part ++ "_v")) ("." ++ ext)
  end.

(** One turn of the loop over the listed files. *)
Definition bump_version (name_part ext : string) (max_version : Z)
    (file : DriveFile) : Z :=
  match Py.int (version_str name_part ext (f_name file)) with
  | Some version_num => Z.max max_version version_num
  | None => max_version                      (* except ValueError: continue *)
  end.

Definition max_version_of (name_part ext : string) (found : list DriveFile)
    : Z :=
  fold_left (bump_version name_part ext) found 0.

(** [get_next_version_number(service, folder_id, base_filename)] *)
Definition get_next_version_number (folder_id base_filename : string) : M Z :=
  let '(_, name_part, ext) := split_base base_filename in
  let version_pattern := name_part ++ "_v" in
  let query := [InParents folder_id; TrashedIs false;
                NameContains version_pattern] in
  try_except
    (found <- files_list query 100 ;;
     ret (max_version_of name_part ext found + 1))
    (fun e =>
       st_error ("Error determining version number: " ++ exn_str e) ;;;
       ret 1).

(** The versioned filename of [upload_versioned_csv]:
    [f"{name_part}_v{version_num}.{ext}"] when the base name has a dot,
    [f"{base_filename}_v{version_num}"] otherwise. *)
Definition new_filename (base_filename : string) (version_num : Z) : string :=
  match split_base base_filename with
  | (true, name_part, ext) =>
      name_part ++ "_v" ++ Py.str version_num ++ "." ++ ext
  | (false, _, _) => base_filename ++ "_v" ++ Py.str version_num
  end.

Definition lift {A} (r : Exn + A) : M A := fun w => (r, w).

Definition upload_message (e : Exn) : string :=
  "Error uploading versioned file: " ++ exn_str e.

Section Libraries.

(** pandas: a table and its [to_csv(index=False)] text, UTF-8 encoded. *)
Variable DataFrame : Type.
Variable to_csv : DataFrame -> string.
Variable read_csv : string -> Exn + DataFrame.

(** The media wrapper of the Drive client, applied to an in-memory buffer
    holding the given bytes: it raises, or yields the bytes to upload. *)
Variable MediaFileUpload : string -> Exn + string.

(** The part of [upload_versioned_csv] that follows the version scan:
    name the file, serialise the table, wrap it and create the file. *)
Definition create_version (folder_id base_filename : string)
    (dataframe : DataFrame) (version_num : Z) : M DriveFile :=
  let name := new_filename base_filename version_num in
  let csv_bytes := to_csv dataframe in
  media <- lift (MediaFileUpload csv_bytes) ;;
  files_create name [folder_id] "text/csv" media.

Definition upload_failed (e : Exn) : M (option DriveFile) :=
  st_error (upload_message e) ;;; ret None.

(** [upload_versioned_csv(service, folder_id, base_filename, dataframe)] *)
Definition upload_versioned_csv (folder_id base_filename : string)
    (dataframe : DataFrame) : M (option DriveFile) :=
  try_except
    (version_num <- get_next_version_number folder_id base_filename ;;
     file <- create_version folder_id base_filename dataframe version_num ;;
     ret (Some file))
    upload_failed.

End Libraries.

Arguments create_version {DataFrame}.
Arguments upload_versioned_csv {DataFrame}.

(** ** Writers taking turns

    One save is two requests: the list of the version scan, then the
    create.  Two sessions saving the same file can therefore interleave.
    A writer is the save between its requests; [writer_step] runs it up to
    and including its next request. *)

Inductive Writer :=
| Idle                                   (* nothing sent yet *)
| Creating (version_num : Z)             (* scanned, create not sent yet *)
| Finished (result : option DriveFile).  (* [upload_versioned_csv] returned *)

Section Writers.

Variable DataFrame : Type.
Variable to_csv : DataFrame -> string.
Variable MediaFileUpload : string -> Exn + string.

Definition finish (m : M (option DriveFile)) (w : World) : Writer * World :=
  match m w with
  | (inr r, w') => (Finished r, w')
  | (inl _, w') => (Finished None, w')
  end.

Definition writer_step (folder_id base_filename : string)
    (dataframe : DataFrame) (wr : Writer) (w : World) : Writer * World :=
  match wr with
  | Idle =>
      match get_next_version_number folder_id base_filename w with
      | (inr version_num, w') => (Creating version_num, w')
      | (inl e, w') => finish (upload_failed e) w'
      end
  | Creating version_num =>
      finish (try_except
                (file <- create_version to_csv MediaFileUpload folder_id
                           base_filename dataframe version_num ;;
                 ret (Some file))
                upload_failed) w
  | Finished r => (Finished r, w)
  end.

(** Two writers on the same folder and base filename; the schedule says
    who sends the next request ([false]: the first writer). *)
Fixpoint run_two (folder_id base_filename : string) (df1 df2 : DataFrame)
    (schedule : list bool) (a b : Writer) (w : World)
    : Writer * Writer * World :=
  match schedule with
  | [] => (a, b, w)
  | false :: rest =>
      let '(a', w') := writer_step folder_id base_filename df1 a w in
      run_two folder_id base_filename df1 df2 rest a' b w'
  | true :: rest =>
      let '(b', w') := writer_step folder_id base_filename df2 b w in
      run_two folder_id base_filename df1 df2 rest a b' w'
  end.

End Writers.

Arguments writer_step {DataFrame}.
Arguments run_two {DataFrame}.

(** ** Properties of worlds and listings used in the statements *)

(** No transport failure is planned. *)
Definition calm (w : World) : bool := forallb negb (faults w).

Definition folder_query (folder_name parent_id : string) : Query :=
  [NameIs folder_name; InParents parent_id; MimeTypeIs folder_mime;
   TrashedIs false].

Definition file_query (filename folder_id : string) : Query :=
  [NameIs filename; InParents folder_id; TrashedIs false].

Definition version_query (folder_id base_filename : string) : Query :=
  let '(_, name_part, _) := split_base base_filename in
  [InParents folder_id; TrashedIs false; NameContains (name_part ++ "_v")].

(** The two parts of the split, and the number the scan computes from the
    files that the list request returned. *)
Definition name_part (base_filename : string) : string :=
  let '(_, n, _) := split_base base_filename in n.

Definition extension (base_filename : string) : string :=
  let '(_, _, e) := split_base base_filename in e.

Definition scanned_version (base_filename : string) (found : list DriveFile)
    : Z :=
  max_version_of (name_part base_filename) (extension base_filename) found + 1.

(** The live children of a folder that a query selects, in store order. *)
Definition selected (q : Query) (fs : list DriveFile) : list DriveFile :=
  filter (matches q) fs.

(** [ids] are the containers reached from [anchor], one per segment of
    [path], taking at each segment the folder the store lists first. *)
Fixpoint first_listed_chain (fs : list DriveFile) (anchor : string)
    (path ids : list string) : Prop :=
  match path, ids with
  | [], [] => True
  | seg :: path', id :: ids' =>
      (exists f others, selected (folder_query seg anchor) fs = f :: others
                        /\ f_id f = id)
      /\ first_listed_chain fs id path' ids'
  | _, _ => False
  end.

(** [ids] is some chain of live folders named after the segments of
    [path], each a child of the one before ([anchor] first). *)
Fixpoint chain (fs : list DriveFile) (anchor : string)
    (path ids : list string) : Prop :=
  match path, ids with
  | [], [] => True
  | seg :: path', id :: ids' =>
      (exists f, In f (selected (folder_query seg anchor) fs) /\ f_id f = id)
      /\ chain fs id path' ids'
  | _, _ => False
  end.

(** The list requests of a walk from [anchor] through [ids]. *)
Fixpoint lookups (anchor : string) (path ids : list string) : list Request :=
  match path with
  | [] => []
  | seg :: path' =>
      FilesList (folder_query seg anchor) 10 ::
      match ids with
      | id :: ids' => lookups id path' ids'
      | [] => []
      end
  end.

(** The name of a version reads back: the scan finds in it the number it
    was made from. *)
Definition reads_back (base_filename name : string) : bool :=
  let '(_, name_part, ext) := split_base base_filename in
  match Py.int (version_str name_part ext name) with
  | Some v => String.eqb name (new_filename base_filename v)
  | None => false
  end.

(** Decimal digits, and strings made of them. *)
Definition is_digit (c : ascii) : bool :=
  match Py.digit_of c with Some _ => true | None => false end.

Definition all_digits (s : string) : Prop :=
  forall c, Py.has_char c s = true -> is_digit c = true.

(** A base filename whose version names read back: the first character of
    the scan's pattern [{stem}_v] is not a digit, and, when the name has a
    dot, is not a dot, does not occur in the extension, and the extension
    is not empty. *)
Definition plain_base (base : string) : bool :=
  let '(dotted, stem, ext) := split_base base in
  match stem ++ "_v" with
  | EmptyString => false
  | String c _ =>
      negb (is_digit c)
      && (if dotted
          then negb (Ascii.eqb c ".") && negb (Py.has_char c ext)
               && negb (String.eqb ext "")
          else true)
  end.

(** ** The allocation rule in the words of the design document *)

Module Design.

Fixpoint strip_prefix (p s : string) : option string :=
  match p, s with
  | EmptyString, _ => Some s
  | String a p', String b s' =>
      if Ascii.eqb a b then strip_prefix p' s' else None
  | String _ _, EmptyString => None
  end.

(** [s] without the suffix [x], when it ends with it. *)
Fixpoint strip_suffix (x s : string) : option string :=
  if String.eqb s x then Some EmptyString
  else match s with
       | EmptyString => None
       | String c s' => option_map (String c) (strip_suffix x s')
       end.

(** A non-negative integer: one or more decimal digits. *)
Fixpoint digits_value (acc : Z) (s : string) : option Z :=
  match s with
  | EmptyString => Some acc
  | String c s' =>
      match Py.digit_of c with
      | Some d => digits_value (acc * 10 + d) s'
      | None => None
      end
  end.

Definition parse_non_negative (s : string) : option Z :=
  match s with
  | EmptyString => None
  | _ => digits_value 0 s
  end.

(** The number a sibling name carries: what is left after taking the
    [{stem}_v] prefix and, for a non-empty [ext], the [.{ext}] suffix off
    the name, read as a non-negative integer. *)
Definition version_of (stem ext name : string) : option Z :=
  match strip_prefix (stem ++ "_v") name with
  | None => None
  | Some rest =>
      match ext with
      | EmptyString => parse_non_negative rest
      | _ => match strip_suffix ("." ++ ext) rest with
             | Some number => parse_non_negative number
             | None => None
             end
      end
  end.

(** [max(parsed values) + 1], or [1] when nothing parses. *)
Definition nextVersion (names : list string) (base_filename : string) : Z :=
  let '(_, stem, ext) := split_base base_filename in
  let candidates := filter (Py.contains (stem ++ "_v")) names in
  fold_left (fun m name => match version_of stem ext name with
                           | Some v => Z.max m v
                           | None => m
                           end) candidates 0 + 1.

End Design.

(** ** Concrete libraries and stores *)

(** A table that is its own CSV text. *)
Definition csv_text : Type := string.

(** [MediaFileUpload] itself: its first argument is a file NAME, which it
    passes to [open(filename, 'rb')]; given the [io.BytesIO] object that
    [upload_versioned_csv] hands it, [open] raises this [TypeError]. *)
Definition media_file_upload (bytes : string) : Exn + string :=
  inl (TypeError "expected str, bytes or os.PathLike object, not BytesIO").

Definition csv_file (id name parent content : string) : DriveFile :=
  mkFile id name [parent] "text/csv" false (view_link id) content.

Definition folder (id name parent : string) : DriveFile :=
  mkFile id name [parent] folder_mime false (view_link id) "".

(** A store that, like Drive, accepts a second file of the same name. *)
Definition drive (fs : list DriveFile) (plan : list bool) : World :=
  mkWorld fs false plan [] [].

(** A store that refuses a name already in use in the folder. *)
Definition strict_store (fs : list DriveFile) (plan : list bool) : World :=
  mkWorld fs true plan [] [].

Definition versions_1_2_7 : list DriveFile :=
  [csv_file "o" "data.csv" "C" "a,b";
   csv_file "v1" "data_v1.csv" "C" "a,b";
   csv_file "v2" "data_v2.csv" "C" "a,c";
   csv_file "v7" "data_v7.csv" "C" "a,d";
   csv_file "r" "data_version_report.csv" "C" "report"].

Definition versions_1_2 : list DriveFile :=
  [csv_file "o" "data.csv" "C" "a,b";
   csv_file "v1" "data_v1.csv" "C" "a,b";
   csv_file "v2" "data_v2.csv" "C" "a,c"].

(** A double extension next to one real version. *)
Definition double_extension : list DriveFile :=
  [csv_file "o" "data.csv" "C" "a,b";
   csv_file "v1" "data_v1.csv" "C" "a,b";
   csv_file "x" "data_v3.csv.csv" "C" "a,b"].

Definition participant_tree : list DriveFile :=
  [folder "f1" "ActiGraph" "R";
   folder "f2" "PID123" "f1";
   folder "f3" "output_PID123" "f2";
   folder "C" "results" "f3";
   csv_file "o" CSV_FILENAME "C" "night,onset"].

(** Two folders named [A] under the anchor; only the second has a [B]. *)
Definition twin_folders : list DriveFile :=
  [folder "a1" "A" "R";
   folder "a2" "A" "R";
   folder "b" "B" "a2"].

(** Two live files of the same name in one folder. *)
Definition twin_files : list DriveFile :=
  [csv_file "p" "data.csv" "C" "first";
   csv_file "q" "data.csv" "C" "second"].

(** One hundred versions [data_v1.csv] ... [data_v100.csv], oldest first. *)
Definition hundred_versions : list DriveFile :=
  map (fun i => let n := Py.str (Z.of_nat i) in
                csv_file ("v" ++ n) ("data_v" ++ n ++ ".csv") "C" "a,b")
      (seq 1 100).

(** ** Reading a file back *)

Section Download.

Variable DataFrame : Type.
Variable read_csv : string -> Exn + DataFrame.

(** The chunk size of [MediaIoBaseDownload]. *)
Variable chunksize : nat.

(** [downloader.next_chunk()]: one ranged [get_media] request.  It yields
    the bytes from [progress] on, at most [chunksize] of them, and whether
    the end of the file is reached with them. *)
Definition next_chunk (file_id : string) (progress : nat)
    : M (string * bool) :=
  send (FilesGetMedia file_id) ;;;
  fun w =>
    match lookup_id file_id (files w) with
    | None => (inl FileNotFound, w)
    | Some f =>
        let chunk := substring progress chunksize (f_content f) in
        (inr (chunk,
              (String.length (f_content f)
               <=? progress + String.length chunk)%nat), w)
    end.

(** [while not done: status, done = downloader.next_chunk()], the chunks
    being written to the buffer [file_content].  [fuel] bounds the number
    of turns; [None] means the loop has not finished within it. *)
Fixpoint download_loop (fuel : nat) (file_id file_content : string)
    : M (option string) :=
  match fuel with
  | O => ret None
  | S fuel' =>
      r <- next_chunk file_id (String.length file_content) ;;
      let file_content' := file_content ++ fst r in
      if snd r then ret (Some file_content')
      else download_loop fuel' file_id file_content'
  end.

(** [download_csv_content(service, file_id)].  The outer [None] means the
    download loop has not finished within [fuel]; [Some None] is Python's
    [None]. *)
Definition download_csv_content (fuel : nat) (file_id : string)
    : M (option (option DataFrame)) :=
  try_except
    (bytes <- download_loop fuel file_id "" ;;
     match bytes with
     | None => ret None
     | Some b => df <- lift (read_csv b) ;; ret (Some (Some df))
     end)
    (fun e =>
       st_error ("Error downloading CSV file: " ++ exn_str e) ;;;
       ret (Some None)).

End Download.

Arguments download_csv_content {DataFrame}.

(** Whether a writer can still send a create request. *)
Definition pending (wr : Writer) : nat :=
  match wr with
  | Finished _ => 0
  | _ => 1
  end.


(** ** The allow-list *)

(** What [get_authorized_users] gets from the Sheets API: no service
    ([get_google_sheets_service] returned [None]), an exception, or the
    rows of the range ([result.get('values', [])]), each row a list of
    cell texts. *)
Inductive SheetFetch :=
| NoService
| FetchFails (e : Exn)
| Fetched (values : list (list string)).

(** [[row[0].strip().lower() for row in values if row and row[0].strip()]] *)
Fixpoint emails_of (values : list (list string)) : list string :=
  match values with
  | [] => []
  | row :: rest =>
      match row with
      | first :: _ =>
          match Py.strip first with
          | EmptyString => emails_of rest
          | stripped => Py.lower stripped :: emails_of rest
          end
      | [] => emails_of rest
      end
  end.

(** The body of [get_authorized_users]: the emails, and the messages it
    shows with [st.error].  (The [st.cache_data] decorator, which returns an
    earlier result for five minutes, is not part of the body.) *)
Definition get_authorized_users (fetch : SheetFetch)
    : list string * list string :=
  match fetch with
  | NoService => ([], [])
  | FetchFails e => ([], ["Failed to fetch authorized users: " ++ exn_str e])
  | Fetched values => (emails_of values, [])
  end.

(** [check_user_authorization(user_email)]:
    [user_email.lower() in authorized_users] *)
Definition check_user_authorization (fetch : SheetFetch) (user_email : string)
    : bool :=
  existsb (String.eqb (Py.lower user_email)) (fst (get_authorized_users fetch)).

(** A fetch whose cells, if any, are ASCII text. *)
Definition ascii_sheet (fetch : SheetFetch) : bool :=
  match fetch with
  | Fetched values => forallb (forallb Py.isascii) values
  | _ => true
  end.

Definition allowlist_sheet : list (list string) :=
  [["  Admin@StonyBrook.edu "]; []; ["   "]; ["user@stonybrook.edu"; "note"]].

(** ** The search of [main] *)

Definition PDF_FILENAME_1 : string := "visualisation_sleep.pdf".
Definition PDF_FILENAME_2 : string := "visualisation_data.pdf".

(** What the search branch of [main] has when it goes on to display:
    the participant's folder and the three files, found or not. *)
Record Found := mkFound {
  target_folder_id : string;
  csv_file_found : option DriveFile;
  pdf_file_1 : option DriveFile;
  pdf_file_2 : option DriveFile
}.

Definition is_list_request (r : Request) : bool :=
  match r with
  | FilesList _ _ => true
  | _ => false
  end.

(** [path_components] of [main]. *)
Definition path_components (selected_accelerometer participant_id : string)
    : list string :=
  [selected_accelerometer; participant_id; "output_" ++ participant_id;
   "results"].

(** The search branch of [main], from the root folder id of the secrets to
    the three file lookups; [None] is where the script ends with
    [st.stop()].  Of the widgets only [st.error] is recorded. *)
Definition search_files (root_folder_id selected_accelerometer
    participant_id : string) : M (option Found) :=
  match root_folder_id with
  | EmptyString =>
      st_error "Root folder ID not configured. Please contact the administrator." ;;;
      ret None
  | _ =>
      target <- find_folder_by_path root_folder_id
                  (path_components selected_accelerometer participant_id) ;;
      match target with
      | None | Some EmptyString =>
          st_error ("❌ Could not find folder for " ++ selected_accelerometer
                    ++ "/" ++ participant_id) ;;;
          ret None
      | Some folder_id =>
          csv <- find_file_in_folder folder_id CSV_FILENAME ;;
          pdf1 <- find_file_in_folder folder_id PDF_FILENAME_1 ;;
          pdf2 <- find_file_in_folder folder_id PDF_FILENAME_2 ;;
          ret (Some (mkFound folder_id csv pdf1 pdf2))
      end
  end.

(** ** Notions used in the further properties *)

(** What [download_csv_content] returns once the bytes are there: the
    table that [pd.read_csv] reads, or [None] when it raises. *)
Definition parsed (DataFrame : Type) (read_csv : string -> Exn + DataFrame)
    (bytes : string) : option DataFrame :=
  match read_csv bytes with
  | inr df => Some df
  | inl _ => None
  end.

(** A file named as a version of the base filename, in the folder only. *)
Definition version_of_base (folder_id base : string) (g : DriveFile) : Prop :=
  (exists v, f_name g = new_filename base v) /\ f_parents g = [folder_id].

(** A string that does not start with whitespace. *)
Definition starts_clean (s : string) : Prop :=
  match s with
  | EmptyString => True
  | String c _ => Py.is_space c = false
  end.

(** * Properties *)

(** ** The Python primitives on examples *)

Example rsplit1_last : Py.rsplit1 "." "a.b.csv" = Some ("a.b", "csv").
Proof. reflexivity. Qed.

Example remove_is_global : Py.remove "data_v3.csv.csv" ".csv" = "data_v3".
Proof. reflexivity. Qed.

Example int_examples :
  Py.int "12" = Some 12 /\ Py.int " +7 " = Some 7 /\ Py.int "-5" = Some (-5)
  /\ Py.int "1_0" = Some 10 /\ Py.int "1." = None /\ Py.int "" = None
  /\ Py.int "ersion_report" = None /\ Py.int "1__0" = None.
Proof. repeat split; reflexivity. Qed.

Example str_examples : Py.str 0 = "0" /\ Py.str 8 = "8" /\ Py.str 120 = "120".
Proof. repeat split; reflexivity. Qed.

(** ** Requests *)

Lemma send_calm r w : calm w = true -> send r w = (inr tt, sent r w).
Proof.
  unfold calm, send, sent. destruct w as [fs u plan cs es]; simpl.
  destruct plan as [|[|] plan]; simpl; intros H; try discriminate; reflexivity.
Qed.

Lemma send_fault r w plan :
  faults w = true :: plan -> send r w = (inl TransportError, sent r w).
Proof.
  unfold send, sent. intros ->. reflexivity.
Qed.

Lemma sent_calm r w : calm w = true -> calm (sent r w) = true.
Proof.
  unfold calm, sent; simpl. destruct (faults w) as [|b plan]; simpl; auto.
  intros H. apply andb_true_iff in H. tauto.
Qed.

Lemma after_calm rs : forall w, calm w = true -> calm (after rs w) = true.
Proof.
  induction rs as [|r rs IH]; simpl; intros w H; auto using sent_calm.
Qed.

Lemma after_files rs : forall w, files (after rs w) = files w.
Proof. induction rs as [|r rs IH]; simpl; intros w; [|rewrite IH]; reflexivity. Qed.

Lemma after_errors rs : forall w, errors (after rs w) = errors w.
Proof. induction rs as [|r rs IH]; simpl; intros w; [|rewrite IH]; reflexivity. Qed.

Lemma after_calls rs : forall w, calls (after rs w) = (calls w ++ rs)%list.
Proof.
  induction rs as [|r rs IH]; simpl; intros w.
  - now rewrite app_nil_r.
  - rewrite IH. simpl. now rewrite <- app_assoc.
Qed.

Lemma files_list_calm q n w :
  calm w = true ->
  files_list q n w = (inr (firstn n (selected q (files w))), sent (FilesList q n) w).
Proof.
  intros H. unfold files_list, bind. rewrite (send_calm _ _ H). reflexivity.
Qed.

(** A request, whatever the fault plan. *)
Lemma send_outcome r w :
  send r w =
  (if hd false (faults w) then inl TransportError else inr tt, sent r w).
Proof.
  unfold send, sent. destruct (faults w) as [|[|] plan]; reflexivity.
Qed.

Lemma files_list_outcome q n w :
  files_list q n w =
  (if hd false (faults w) then inl TransportError
   else inr (firstn n (selected q (files w))), sent (FilesList q n) w).
Proof.
  unfold files_list, bind. rewrite send_outcome.
  destruct (hd false (faults w)); reflexivity.
Qed.

Lemma calm_hd w : calm w = true -> hd false (faults w) = false.
Proof.
  unfold calm. destruct (faults w) as [|[|] plan]; simpl; auto.
Qed.

(** ** [find_folder_by_path] *)

(** One turn of the loop, in terms of what the list request answers. *)
Lemma find_folder_step anchor seg rest w :
  find_folder_by_path anchor (seg :: rest) w =
  match files_list (folder_query seg anchor) 10 w with
  | (inr [], w') => (inr None, w')
  | (inr (first :: _), w') => find_folder_by_path (f_id first) rest w'
  | (inl e, w') =>
      (inr None,
       shown ("Error navigating to folder '" ++ seg ++ "': " ++ exn_str e) w')
  end.
Proof.
  cbn [find_folder_by_path]. unfold bind at 1, try_except, bind at 1.
  fold (folder_query seg anchor).
  destruct (files_list (folder_query seg anchor) 10 w) as [[e|[|f fs]] w'];
    reflexivity.
Qed.

Lemma last_cons {A} (l : list A) : forall x a, last (x :: l) a = last l x.
Proof.
  induction l as [|y l IH]; intros x a; [reflexivity|].
  change (last (x :: y :: l) a) with (last (y :: l) a).
  now rewrite !IH.
Qed.

Lemma lookups_snoc path : forall anchor ids seg post,
  List.length ids = List.length path ->
  lookups anchor (path ++ seg :: post)%list ids =
  (lookups anchor path ids ++ [FilesList (folder_query seg (last ids anchor)) 10])%list.
Proof.
  induction path as [|s path IH]; intros anchor [|id ids] seg post Hlen;
    try discriminate.
  - reflexivity.
  - simpl in Hlen. injection Hlen as Hlen.
    cbn [app lookups]. rewrite (IH id ids seg post Hlen).
    now rewrite last_cons.
Qed.

Lemma first_listed_chain_length fs path : forall anchor ids,
  first_listed_chain fs anchor path ids -> List.length ids = List.length path.
Proof.
  induction path as [|s path IH]; intros anchor [|id ids] H; simpl in *;
    try contradiction; [reflexivity|].
  f_equal. eapply IH. exact (proj2 H).
Qed.

Lemma resolve_along_chain path : forall anchor ids w,
  calm w = true ->
  first_listed_chain (files w) anchor path ids ->
  find_folder_by_path anchor path w =
  (inr (Some (last ids anchor)), after (lookups anchor path ids) w).
Proof.
  induction path as [|seg path IH]; intros anchor [|id ids] w Hcalm Hchain;
    simpl in Hchain; try contradiction; [reflexivity|].
  destruct Hchain as [(f & others & Hsel & Hid) Hrest].
  rewrite find_folder_step, (files_list_calm _ _ _ Hcalm), Hsel.
  cbn [firstn]. rewrite Hid.
  rewrite (IH id ids (sent (FilesList (folder_query seg anchor) 10) w)).
  - now rewrite last_cons.
  - now apply sent_calm.
  - exact Hrest.
Qed.

Lemma resolve_stops_at_gap path : forall anchor ids w seg post,
  calm w = true ->
  first_listed_chain (files w) anchor path ids ->
  selected (folder_query seg (last ids anchor)) (files w) = [] ->
  find_folder_by_path anchor (path ++ seg :: post)%list w =
  (inr None, after (lookups anchor (path ++ seg :: post)%list ids) w).
Proof.
  induction path as [|s path IH]; intros anchor [|id ids] w seg post Hcalm Hchain Hgap;
    simpl in Hchain; try contradiction.
  - simpl in Hgap. cbn [app].
    rewrite find_folder_step, (files_list_calm _ _ _ Hcalm), Hgap. reflexivity.
  - destruct Hchain as [(f & others & Hsel & Hid) Hrest].
    cbn [app]. rewrite find_folder_step, (files_list_calm _ _ _ Hcalm), Hsel.
    cbn [firstn]. rewrite Hid.
    rewrite (IH id ids (sent (FilesList (folder_query s anchor) 10) w) seg post).
    + reflexivity.
    + now apply sent_calm.
    + exact Hrest.
    + now rewrite last_cons in Hgap.
Qed.

(** C6, as amended.  For an anchor, segments and folder ids that are
    quotable, and with no request failing: the resolver follows, segment by
    segment, the folder that the store lists first.  When every segment has
    a match along that walk, the resolver returns the id of the last folder
    reached and has sent one list request per segment.  When the walk has
    matched [path] and the next segment [seg] has no matching live folder
    under the folder reached, the resolver returns [None] and the requests
    sent are those for [path] followed by the one for [seg]: none for the
    segments [post] that come after it; no file changes and no error is
    shown. *)
Theorem C6_resolver_follows_first_listed_chain w anchor path ids :
  calm w = true ->
  Forall (fun s => quotable s = true) (anchor :: path ++ ids) ->
  first_listed_chain (files w) anchor path ids ->
  find_folder_by_path anchor path w =
    (inr (Some (last ids anchor)), after (lookups anchor path ids) w)
  /\ forall seg post,
       quotable seg = true ->
       selected (folder_query seg (last ids anchor)) (files w) = [] ->
       find_folder_by_path anchor (path ++ seg :: post)%list w =
         (inr None,
          after (lookups anchor path ids
                 ++ [FilesList (folder_query seg (last ids anchor)) 10])%list w).
Proof.
  intros Hcalm _ Hchain. split.
  - now apply resolve_along_chain.
  - intros seg post _ Hgap.
    rewrite (resolve_stops_at_gap path anchor ids w seg post Hcalm Hchain Hgap).
    now rewrite (lookups_snoc path anchor ids seg post
                   (first_listed_chain_length _ _ _ _ Hchain)).
Qed.

Lemma C6_participant_results_folder :
  find_folder_by_path "R" ["ActiGraph"; "PID123"; "output_PID123"; "results"]
    (drive participant_tree []) =
    (inr (Some "C"),
     after (lookups "R" ["ActiGraph"; "PID123"; "output_PID123"; "results"]
              ["f1"; "f2"; "f3"; "C"]) (drive participant_tree []))
  /\ forall seg post,
       quotable seg = true ->
       selected (folder_query seg "C") participant_tree = [] ->
       find_folder_by_path "R"
         (["ActiGraph"; "PID123"; "output_PID123"; "results"] ++ seg :: post)%list
         (drive participant_tree []) =
         (inr None,
          after (lookups "R" ["ActiGraph"; "PID123"; "output_PID123"; "results"]
                   ["f1"; "f2"; "f3"; "C"]
                 ++ [FilesList (folder_query seg "C") 10])%list
                (drive participant_tree [])).
Proof.
  apply (C6_resolver_follows_first_listed_chain (drive participant_tree []) "R"
           ["ActiGraph"; "PID123"; "output_PID123"; "results"]
           ["f1"; "f2"; "f3"; "C"]).
  - reflexivity.
  - repeat constructor.
  - simpl. repeat split; eexists _, _; split; reflexivity.
Defined.

(** The requests of a walk that stops at a missing segment. *)
Example resolver_stops_at_missing_participant :
  let w := drive participant_tree [] in
  let '(r, w') := find_folder_by_path "R"
                    ["ActiGraph"; "PID999"; "output_PID999"; "results"] w in
  r = inr None
  /\ calls w' = [FilesList (folder_query "ActiGraph" "R") 10;
                 FilesList (folder_query "PID999" "f1") 10]
  /\ errors w' = [] /\ files w' = files w.
Proof. vm_compute. repeat split; reflexivity. Qed.

(** C6, as stated, fails: a chain of live folders [A/B] exists under the
    anchor, no request fails, and the resolver answers [None], because the
    store lists another folder named [A] first. *)
Lemma C6_existing_chain_not_found :
  calm (drive twin_folders []) = true
  /\ chain twin_folders "R" ["A"; "B"] ["a2"; "b"]
  /\ fst (find_folder_by_path "R" ["A"; "B"] (drive twin_folders [])) = inr None.
Proof.
  split; [reflexivity|]. split; [|reflexivity].
  simpl. repeat split.
  - exists (folder "a2" "A" "R"). split; [|reflexivity]. vm_compute. auto.
  - exists (folder "b" "B" "a2"). split; [|reflexivity]. vm_compute. auto.
Qed.

(** ** [find_file_in_folder] *)

Lemma find_file_run folder_id filename w :
  find_file_in_folder folder_id filename w =
  match files_list (file_query filename folder_id) 10 w with
  | (inr (first :: _), w') => (inr (Some first), w')
  | (inr [], w') => (inr None, w')
  | (inl e, w') =>
      (inr None,
       shown ("Error finding file '" ++ filename ++ "': " ++ exn_str e) w')
  end.
Proof.
  unfold find_file_in_folder, try_except, bind at 1.
  fold (file_query filename folder_id).
  destruct (files_list (file_query filename folder_id) 10 w) as [[e|[|f fs]] w'];
    reflexivity.
Qed.

(** C10.  When the folder holds several live files of the requested name
    (the name and the folder id being quotable, and the request not
    failing), the locator neither fails nor reports anything: it returns
    the first file of the store's listing, whatever the others are. *)
Theorem C10_first_listed_file_wins w folder_id filename first second others :
  calm w = true ->
  quotable folder_id = true ->
  quotable filename = true ->
  selected (file_query filename folder_id) (files w) = first :: second :: others ->
  find_file_in_folder folder_id filename w =
    (inr (Some first), sent (FilesList (file_query filename folder_id) 10) w).
Proof.
  intros Hcalm _ _ Hsel.
  now rewrite find_file_run, (files_list_calm _ _ _ Hcalm), Hsel.
Qed.

Lemma C10_twin_files_first :
  find_file_in_folder "C" "data.csv" (drive twin_files []) =
    (inr (Some (csv_file "p" "data.csv" "C" "first")),
     sent (FilesList (file_query "data.csv" "C") 10) (drive twin_files [])).
Proof.
  apply (C10_first_listed_file_wins (drive twin_files []) "C" "data.csv"
           (csv_file "p" "data.csv" "C" "first")
           (csv_file "q" "data.csv" "C" "second") []).
  - reflexivity.
  - reflexivity.
  - reflexivity.
  - reflexivity.
Defined.

(** The answer follows the listing order: the same two files listed the
    other way round give the other file. *)
Example locator_follows_listing_order :
  fst (find_file_in_folder "C" "data.csv" (drive (rev twin_files) []))
  = inr (Some (csv_file "q" "data.csv" "C" "second")).
Proof. reflexivity. Qed.

(** ** [get_next_version_number] *)

Lemma get_next_version_run folder_id base_filename w :
  get_next_version_number folder_id base_filename w =
  match files_list (version_query folder_id base_filename) 100 w with
  | (inr found, w') => (inr (scanned_version base_filename found), w')
  | (inl e, w') =>
      (inr 1, shown ("Error determining version number: " ++ exn_str e) w')
  end.
Proof.
  unfold get_next_version_number, version_query, scanned_version, name_part,
    extension.
  destruct (split_base base_filename) as [[dotted n] e].
  unfold try_except, bind at 1.
  destruct (files_list _ 100 w) as [[x|found] w']; reflexivity.
Qed.

(** A walk ends at the first request that fails: whatever the store
    lists, if the transport fails on request number [k] of the walk
    (counted from 0), that request is the last one, for segment number [k];
    the result is [None] and the message shown names that segment. *)
Lemma resolve_failure path : forall anchor w,
  exists r w' rs,
    find_folder_by_path anchor path w = (inr r, w')
    /\ calls w' = (calls w ++ rs)%list
    /\ forall k,
         (k < List.length rs)%nat -> nth k (faults w) false = true ->
         r = None /\ List.length rs = S k
         /\ errors w' =
            (errors w ++ [("Error navigating to folder '" ++ nth k path ""
                           ++ "': transport error")%string])%list.
Proof.
  induction path as [|seg path IH]; intros anchor w.
  - exists (Some anchor), w, []. cbn [find_folder_by_path ret].
    rewrite app_nil_r. repeat split; simpl in *; lia.
  - rewrite find_folder_step, files_list_outcome.
    destruct (hd false (faults w)) eqn:Hhd.
    + eexists None, _, [_]. split; [reflexivity|]. split; [reflexivity|].
      intros k Hk _. assert (k = 0)%nat by (simpl in Hk; lia). subst k.
      repeat split.
    + assert (H0 : nth 0 (faults w) false = false)
        by (destruct (faults w); [reflexivity|exact Hhd]).
      destruct (firstn 10 _) as [|f fs].
      * eexists None, _, [_]. split; [reflexivity|]. split; [reflexivity|].
        intros k Hk Hf. assert (k = 0)%nat by (simpl in Hk; lia). subst k.
        congruence.
      * destruct (IH (f_id f) (sent (FilesList (folder_query seg anchor) 10) w))
          as (r & w' & rs & Hrun & Hcalls & Hfail).
        exists r, w', (FilesList (folder_query seg anchor) 10 :: rs).
        split; [exact Hrun|].
        split; [rewrite Hcalls; cbn [sent calls]; now rewrite <- app_assoc|].
        intros [|k] Hk Hf; [congruence|].
        assert (Hf' : nth k (faults (sent (FilesList (folder_query seg anchor) 10) w))
                        false = true).
        { cbn [sent faults]. destruct (faults w); [discriminate Hf|exact Hf]. }
        assert (Hk' : (k < List.length rs)%nat) by (simpl in Hk; lia).
        destruct (Hfail k Hk' Hf') as (Hr & Hlen & Herr).
        split; [exact Hr|]. split; [simpl; now rewrite Hlen|].
        rewrite Herr. reflexivity.
Qed.

(** C9, as amended.  When a store request of the resolver (any request of
    its walk), of the locator or of the version scan fails in transport,
    the failure is shown with [st.error] and absorbed: the function raises
    nothing and returns its ordinary negative or default value ([None],
    [None], [1]).  For the resolver: whatever the store lists, the walk
    returns without an exception, and if the transport fails on request
    number [k] of the walk, the walk ends with that request, answers [None]
    and shows the message naming segment number [k]. *)
Theorem C9_transport_failure_is_shown_and_absorbed
    w anchor path folder_id filename base_filename :
  (exists r w' rs,
     find_folder_by_path anchor path w = (inr r, w')
     /\ calls w' = (calls w ++ rs)%list
     /\ forall k,
          (k < List.length rs)%nat -> nth k (faults w) false = true ->
          r = None /\ List.length rs = S k
          /\ errors w' =
             (errors w ++ [("Error navigating to folder '" ++ nth k path ""
                            ++ "': transport error")%string])%list)
  /\ (hd false (faults w) = true ->
      find_file_in_folder folder_id filename w =
        (inr None,
         shown ("Error finding file '" ++ filename ++ "': transport error")
               (sent (FilesList (file_query filename folder_id) 10) w))
      /\ get_next_version_number folder_id base_filename w =
        (inr 1,
         shown "Error determining version number: transport error"
               (sent (FilesList (version_query folder_id base_filename) 100) w))).
Proof.
  split; [apply resolve_failure|].
  intros Hfault. split.
  - now rewrite find_file_run, files_list_outcome, Hfault.
  - now rewrite get_next_version_run, files_list_outcome, Hfault.
Qed.

Lemma C9_failure_in_the_results_folder :
  (let w := drive participant_tree [false; false; true] in
   exists r w' rs,
     find_folder_by_path "R" ["ActiGraph"; "PID123"; "output_PID123"; "results"] w
       = (inr r, w')
     /\ calls w' = rs
     /\ r = None /\ List.length rs = 3%nat
     /\ errors w' =
        ["Error navigating to folder 'output_PID123': transport error"])
  /\ (let w := drive versions_1_2_7 [true] in
      find_file_in_folder "C" "data.csv" w =
        (inr None,
         shown ("Error finding file '" ++ "data.csv" ++ "': transport error")
               (sent (FilesList (file_query "data.csv" "C") 10) w))
      /\ get_next_version_number "C" "data.csv" w =
        (inr 1,
         shown "Error determining version number: transport error"
               (sent (FilesList (version_query "C" "data.csv") 100) w))).
Proof.
  split.
  - cbv zeta.
    destruct (proj1 (C9_transport_failure_is_shown_and_absorbed
                       (drive participant_tree [false; false; true]) "R"
                       ["ActiGraph"; "PID123"; "output_PID123"; "results"]
                       "C" "data.csv" "data.csv"))
      as (r & w' & rs & Hrun & Hcalls & Hfail).
    exists r, w', rs. split; [exact Hrun|]. split; [exact Hcalls|].
    apply (Hfail 2%nat).
    + apply (f_equal snd) in Hrun. cbn [snd] in Hrun.
      rewrite <- Hrun in Hcalls. cbn [calls drive app] in Hcalls.
      rewrite <- Hcalls. vm_compute. repeat constructor.
    + reflexivity.
  - apply (proj2 (C9_transport_failure_is_shown_and_absorbed
                    (drive versions_1_2_7 [true]) "R" [] "C" "data.csv"
                    "data.csv")).
    reflexivity.
Defined.

(** C9, as stated, fails: with the transport down each function returns
    exactly what it returns, with the transport up, when the folder or file
    is absent or no version exists; no exception reaches the caller. *)
Lemma C9_failure_returns_the_normal_result :
  fst (find_folder_by_path "R" ["ActiGraph"] (drive participant_tree [true]))
    = inr None
  /\ fst (find_folder_by_path "R" ["Fitbit"] (drive participant_tree []))
    = inr None
  /\ fst (find_file_in_folder "C" CSV_FILENAME (drive participant_tree [true]))
    = inr None
  /\ fst (find_file_in_folder "C" "absent.csv" (drive participant_tree []))
    = inr None
  /\ fst (get_next_version_number "C" "data.csv" (drive versions_1_2_7 [true]))
    = inr 1
  /\ fst (get_next_version_number "C" "data.csv" (drive [] []))
    = inr 1
  /\ fst (get_next_version_number "C" "data.csv" (drive versions_1_2_7 []))
    = inr 8.
Proof. repeat split; reflexivity. Qed.

(** A failure deep in the walk. *)
Example resolver_absorbs_later_failure :
  let '(r, w') := find_folder_by_path "R"
                    ["ActiGraph"; "PID123"; "output_PID123"; "results"]
                    (drive participant_tree [false; false; true]) in
  r = inr None
  /\ errors w' = ["Error navigating to folder 'output_PID123': transport error"]
  /\ List.length (calls w') = 3%nat.
Proof. vm_compute. repeat split; reflexivity. Qed.

(** ** Splitting the base filename and naming a version *)

Lemma rsplit1_absent c s : Py.has_char c s = false -> Py.rsplit1 c s = None.
Proof.
  induction s as [|d s IH]; simpl; [reflexivity|].
  intros H. apply orb_false_iff in H. destruct H as [Hd Hs].
  rewrite (IH Hs), Hd. reflexivity.
Qed.

Lemma rsplit1_last_occurrence c stem ext :
  Py.has_char c ext = false ->
  Py.rsplit1 c (stem ++ String c ext) = Some (stem, ext).
Proof.
  intros H. induction stem as [|d stem IH]; simpl.
  - now rewrite (rsplit1_absent _ _ H), Ascii.eqb_refl.
  - now rewrite IH.
Qed.

Lemma has_char_middle c stem ext : Py.has_char c (stem ++ String c ext) = true.
Proof.
  induction stem as [|d stem IH]; simpl.
  - now rewrite Ascii.eqb_refl.
  - rewrite IH. apply orb_true_r.
Qed.

Lemma split_base_dotted stem ext :
  Py.has_char "." ext = false ->
  split_base (stem ++ "." ++ ext) = (true, stem, ext).
Proof.
  intros H. unfold split_base. cbn [append].
  now rewrite has_char_middle, (rsplit1_last_occurrence _ _ _ H).
Qed.

Lemma split_base_plain base :
  Py.has_char "." base = false -> split_base base = (false, base, "").
Proof. intros H. unfold split_base. now rewrite H. Qed.

(** C8.  The base filename is split at its last dot into stem and
    extension, and the versioned name is [{stem}_v{n}.{ext}]; a base
    filename without a dot has an empty extension and the versioned name is
    [{base}_v{n}], with nothing after the number.  The scan and the upload
    use the same split. *)
Theorem C8_versioned_name_shape base_filename n :
  (forall stem ext,
     base_filename = stem ++ "." ++ ext -> Py.has_char "." ext = false ->
     split_base base_filename = (true, stem, ext)
     /\ new_filename base_filename n = stem ++ "_v" ++ Py.str n ++ "." ++ ext)
  /\ (Py.has_char "." base_filename = false ->
      split_base base_filename = (false, base_filename, "")
      /\ new_filename base_filename n = base_filename ++ "_v" ++ Py.str n).
Proof.
  split.
  - intros stem ext -> Hext. unfold new_filename.
    now rewrite (split_base_dotted _ _ Hext).
  - intros Hplain. unfold new_filename.
    now rewrite (split_base_plain _ Hplain).
Qed.

Lemma C8_names_of_version_3 :
  (split_base "part4.night.csv" = (true, "part4.night", "csv")
   /\ new_filename "part4.night.csv" 3 = "part4.night_v3.csv")
  /\ (split_base "README" = (false, "README", "")
      /\ new_filename "README" 3 = "README_v3").
Proof.
  split.
  - apply (proj1 (C8_versioned_name_shape "part4.night.csv" 3)
             "part4.night" "csv"); reflexivity.
  - apply (proj2 (C8_versioned_name_shape "README" 3)); reflexivity.
Defined.

Example new_filename_of_the_application :
  new_filename CSV_FILENAME 1 = "part4_nightsummary_sleep_cleaned_v1.csv".
Proof. reflexivity. Qed.

(** ** [upload_versioned_csv] *)

Lemma files_create_outcome name parents mime content w :
  files_create name parents mime content w =
  let r := FilesCreate name parents content in
  if hd false (faults w) then (inl TransportError, sent r w)
  else if unique_names w && name_taken name parents (files w)
       then (inl NameExists, sent r w)
       else let f := created_file (files w) name parents mime content in
            (inr f, stored f (sent r w)).
Proof.
  unfold files_create, bind. rewrite send_outcome.
  destruct (hd false (faults w)); reflexivity.
Qed.

(** The scan never raises, and changes no file. *)
Lemma get_next_version_outcome folder_id base_filename w :
  let l := FilesList (version_query folder_id base_filename) 100 in
  get_next_version_number folder_id base_filename w =
  if hd false (faults w)
  then (inr 1,
        shown "Error determining version number: transport error" (sent l w))
  else (inr (scanned_version base_filename
               (firstn 100 (selected (version_query folder_id base_filename)
                              (files w)))),
        sent l w).
Proof.
  cbv zeta. rewrite get_next_version_run. unfold files_list, bind.
  rewrite send_outcome. destruct (hd false (faults w)); reflexivity.
Qed.

Lemma scanned_version_positive base_filename found :
  1 <= scanned_version base_filename found.
Proof.
  unfold scanned_version, max_version_of.
  assert (H : forall l m, 0 <= m ->
            0 <= fold_left (bump_version (name_part base_filename)
                              (extension base_filename)) l m).
  { induction l as [|f l IH]; simpl; intros m Hm; [exact Hm|].
    apply IH. unfold bump_version.
    destruct (Py.int _); lia. }
  specialize (H found 0). lia.
Qed.

Section Upload.

Variable DataFrame : Type.
Variable to_csv : DataFrame -> string.
Variable MediaFileUpload : string -> Exn + string.

(** What the create step does with the version it was given. *)
Lemma create_step_outcome folder_id base_filename (df : DataFrame) v w :
  writer_step to_csv MediaFileUpload folder_id base_filename df (Creating v) w =
  match create_version to_csv MediaFileUpload folder_id base_filename df v w with
  | (inr f, w') => (Finished (Some f), w')
  | (inl e, w') => (Finished None, shown (upload_message e) w')
  end.
Proof.
  cbn [writer_step]. unfold finish, try_except, bind at 1.
  destruct (create_version _ _ _ _ _ _ w) as [[e|f] w']; reflexivity.
Qed.

Lemma create_version_outcome folder_id base_filename (df : DataFrame) v w :
  create_version to_csv MediaFileUpload folder_id base_filename df v w =
  match MediaFileUpload (to_csv df) with
  | inl e => (inl e, w)
  | inr media =>
      files_create (new_filename base_filename v) [folder_id] "text/csv"
                   media w
  end.
Proof.
  unfold create_version, bind at 1, lift.
  destruct (MediaFileUpload (to_csv df)); reflexivity.
Qed.

(** A save is its two steps, one after the other. *)
Lemma upload_is_two_steps folder_id base_filename (df : DataFrame) w :
  upload_versioned_csv to_csv MediaFileUpload folder_id base_filename df w =
  let '(wr, w1) := writer_step to_csv MediaFileUpload folder_id base_filename
                     df Idle w in
  match writer_step to_csv MediaFileUpload folder_id base_filename df wr w1 with
  | (Finished r, w2) => (inr r, w2)
  | (_, w2) => (inr None, w2)
  end.
Proof.
  unfold upload_versioned_csv. cbn [writer_step].
  unfold try_except at 1, bind at 1.
  pose proof (get_next_version_outcome folder_id base_filename w) as Hscan.
  cbv zeta in Hscan. rewrite Hscan.
  destruct (hd false (faults w)).
  - rewrite create_step_outcome. unfold bind.
    destruct (create_version _ _ _ _ _ _ _) as [[e|f] w']; reflexivity.
  - rewrite create_step_outcome. unfold bind.
    destruct (create_version _ _ _ _ _ _ _) as [[e|f] w']; reflexivity.
Qed.

(** The whole save, request by request. *)
Lemma upload_outcome folder_id base_filename (df : DataFrame) w :
  let l := FilesList (version_query folder_id base_filename) 100 in
  let v := if hd false (faults w) then 1
           else scanned_version base_filename
                  (firstn 100 (selected (version_query folder_id base_filename)
                                 (files w))) in
  let w1 := if hd false (faults w)
            then shown "Error determining version number: transport error"
                       (sent l w)
            else sent l w in
  upload_versioned_csv to_csv MediaFileUpload folder_id base_filename df w =
  match create_version to_csv MediaFileUpload folder_id base_filename df v w1 with
  | (inr f, w2) => (inr (Some f), w2)
  | (inl e, w2) => (inr None, shown (upload_message e) w2)
  end.
Proof.
  cbv zeta. rewrite upload_is_two_steps. cbn [writer_step].
  pose proof (get_next_version_outcome folder_id base_filename w) as Hscan.
  cbv zeta in Hscan. rewrite Hscan.
  destruct (hd false (faults w)); rewrite create_step_outcome;
    destruct (create_version _ _ _ _ _ _ _) as [[e|f] w']; reflexivity.
Qed.


End Upload.

Lemma lookup_id_app id fs g extra :
  lookup_id id fs = Some g -> lookup_id id (fs ++ extra)%list = Some g.
Proof.
  unfold lookup_id. induction fs as [|f fs IH]; simpl; [discriminate|].
  destruct (String.eqb (f_id f) id); auto.
Qed.

(** C5.  Whatever the libraries and the store do, a save ends without an
    exception, sends only list and create requests (never one that writes
    to or removes an existing file), and leaves every file that was in the
    store as it was, under the same id.  When it succeeds, exactly one file
    has been added, named after the base filename and a version number;
    when it fails, the store's files are exactly what they were. *)
Theorem C5_save_only_adds_one_file
    (DataFrame : Type) (to_csv : DataFrame -> string)
    (MediaFileUpload : string -> Exn + string)
    folder_id base_filename (df : DataFrame) w :
  exists result w' requests,
    upload_versioned_csv to_csv MediaFileUpload folder_id base_filename df w
      = (inr result, w')
    /\ calls w' = (calls w ++ requests)%list
    /\ Forall (fun r => writes_existing r = false) requests
    /\ (forall id g, lookup_id id (files w) = Some g ->
                     lookup_id id (files w') = Some g)
    /\ match result with
       | Some f =>
           (exists v, 1 <= v /\ f_name f = new_filename base_filename v)
           /\ files w' = (files w ++ [f])%list
       | None => files w' = files w
       end.
Proof.
  rewrite upload_outcome. cbv zeta. rewrite create_version_outcome.
  set (found := firstn 100 _).
  pose proof (scanned_version_positive base_filename found) as Hpos.
  destruct (MediaFileUpload (to_csv df)) as [e|media].
  - eexists None, _, [_]. split; [reflexivity|].
    destruct (hd false (faults w)); simpl;
      (split; [reflexivity|]); (split; [repeat constructor|]); auto.
  - rewrite files_create_outcome. cbv zeta.
    destruct (hd false (faults w)) eqn:Hw; cbn [unique_names files shown sent];
      match goal with
      | |- context [hd false (faults ?w1)] => destruct (hd false (faults w1))
      end;
      try (eexists None, _, [_; _]; split; [reflexivity|]; simpl;
           rewrite <- app_assoc; simpl;
           (split; [reflexivity|]); (split; [repeat constructor|]); now auto);
      destruct (unique_names w && name_taken _ _ (files w));
      try (eexists None, _, [_; _]; split; [reflexivity|]; simpl;
           rewrite <- app_assoc; simpl;
           (split; [reflexivity|]); (split; [repeat constructor|]); now auto);
      (eexists (Some _), _, [_; _]; split; [reflexivity|]; simpl;
       rewrite <- app_assoc; simpl;
       (split; [reflexivity|]); (split; [repeat constructor|]);
       split; [intros id g Hg; now apply lookup_id_app|];
       split; [|reflexivity]; eexists; split; [|reflexivity]; lia).
Qed.

(** C7: the save as the code runs it.  [MediaFileUpload] is given an
    [io.BytesIO] where it takes a file name and raises; the exception is
    caught, the scan is the only request sent, and no file is created: the
    payload never reaches the store. *)
Theorem C7_payload_never_reaches_the_store
    (DataFrame : Type) (to_csv : DataFrame -> string)
    folder_id base_filename (df : DataFrame) w :
  exists w',
    upload_versioned_csv to_csv media_file_upload folder_id base_filename df w
      = (inr None, w')
    /\ files w' = files w
    /\ calls w' = (calls w ++ [FilesList (version_query folder_id base_filename)
                                 100])%list
    /\ last (errors w') "" =
       "Error uploading versioned file: expected str, bytes or os.PathLike object, not BytesIO".
Proof.
  rewrite upload_outcome. cbv zeta. rewrite create_version_outcome.
  cbn [media_file_upload]. eexists. split; [reflexivity|].
  destruct (hd false (faults w)); simpl; repeat split;
    apply last_last.
Qed.

Example save_of_an_edited_table_fails :
  let '(r, w') :=
    upload_versioned_csv (fun t : csv_text => t) media_file_upload "C"
      CSV_FILENAME "night,onset,edited" (drive participant_tree []) in
  r = inr None
  /\ files w' = participant_tree
  /\ errors w' = ["Error uploading versioned file: expected str, bytes or os.PathLike object, not BytesIO"].
Proof. vm_compute. repeat split. Qed.

(** ** Saves with the media wrapper as the code calls it *)

Section Shipped.

Variable DataFrame : Type.
Variable to_csv : DataFrame -> string.






End Shipped.


(** The save that scanned 3 before somebody else's [data_v3.csv] appeared:
    on a store that refuses names in use as on Drive, no create is sent,
    for version 3 or for version 4. *)
Example taken_name_is_not_retried :
  let taken := (versions_1_2 ++ [csv_file "n" "data_v3.csv" "C" "one"])%list in
  let step := writer_step (fun t : csv_text => t) media_file_upload "C"
                "data.csv" "two" (Creating 3) in
  name_taken (new_filename "data.csv" 3) ["C"] taken = true
  /\ fst (step (strict_store taken [])) = Finished None
  /\ calls (snd (step (strict_store taken []))) = []
  /\ fst (step (drive taken [])) = Finished None
  /\ calls (snd (step (drive taken []))) = []
  /\ errors (snd (step (drive taken [])))
     = ["Error uploading versioned file: expected str, bytes or os.PathLike object, not BytesIO"].
Proof. vm_compute. repeat split. Qed.


(** The race for [data_v3.csv]: both writers find versions 1 and 2, both
    saves fail, and the folder holds what it held. *)
Example race_for_version_3 :
  let '(a, b, w') :=
    run_two (fun t : csv_text => t) media_file_upload "C" "data.csv" "one" "two"
            [false; true; false; true] Idle Idle (drive versions_1_2 []) in
  a = Finished None /\ b = Finished None
  /\ map f_name (files w') = ["data.csv"; "data_v1.csv"; "data_v2.csv"]
  /\ calls w' = [FilesList (version_query "C" "data.csv") 100;
                 FilesList (version_query "C" "data.csv") 100]
  /\ errors w' =
     ["Error uploading versioned file: expected str, bytes or os.PathLike object, not BytesIO";
      "Error uploading versioned file: expected str, bytes or os.PathLike object, not BytesIO"].
Proof. vm_compute. repeat split. Qed.


(** Two saves of the application's file, one after the other. *)
Example two_saves_in_a_row :
  let save := upload_versioned_csv (fun t : csv_text => t) media_file_upload
                "C" "data.csv" in
  let w := drive versions_1_2 [] in
  fst (save "one" w) = inr None
  /\ fst (save "two" (snd (save "one" w))) = inr None
  /\ map f_name (files (snd (save "two" (snd (save "one" w)))))
     = ["data.csv"; "data_v1.csv"; "data_v2.csv"].
Proof. vm_compute. repeat split. Qed.

(** ** Version names are injective, and contain their pattern *)

Lemma length_append a b :
  String.length (a ++ b) = (String.length a + String.length b)%nat.
Proof. induction a as [|c a IH]; simpl; [reflexivity|now rewrite IH]. Qed.

Lemma append_inv_head s a b : s ++ a = s ++ b -> a = b.
Proof.
  induction s as [|c s IH]; simpl; [auto|].
  intros H. injection H as H. auto.
Qed.

Lemma append_inv_tail t : forall a b, a ++ t = b ++ t -> a = b.
Proof.
  induction a as [|c a IH]; intros [|d b] H; simpl in H.
  - reflexivity.
  - apply (f_equal String.length) in H. simpl in H.
    rewrite length_append in H. lia.
  - apply (f_equal String.length) in H. simpl in H.
    rewrite length_append in H. lia.
  - injection H as -> H. f_equal. now apply IH.
Qed.

Lemma append_assoc a b c : (a ++ b) ++ c = a ++ b ++ c.
Proof. induction a as [|x a IH]; simpl; [reflexivity|now rewrite IH]. Qed.

Lemma str_inj n m : Py.str n = Py.str m -> n = m.
Proof.
  unfold Py.str. intros H. apply DecimalZ.to_int_inj.
  assert (Hn : forall z, NilZero.int_of_string (NilZero.string_of_int (Z.to_int z))
                         = Some (Z.to_int z)).
  { intros z. apply NilZero.isi; destruct z; simpl; try discriminate;
      intros [= E]; now apply DecimalPos.Unsigned.to_uint_nonnil in E. }
  pose proof (Hn n) as H1. rewrite H, Hn in H1. now injection H1.
Qed.

Lemma split_base_undotted base n e :
  split_base base = (false, n, e) -> n = base /\ e = "".
Proof.
  unfold split_base. destruct (Py.has_char "." base).
  - destruct (Py.rsplit1 "." base) as [[a b]|]; discriminate.
  - intros [= <- <-]. auto.
Qed.

Lemma new_filename_inj base v v' :
  new_filename base v = new_filename base v' -> v = v'.
Proof.
  unfold new_filename. destruct (split_base base) as [[[|] n] e]; intros H.
  - apply append_inv_head in H. cbn [append] in H. injection H as H.
    apply append_inv_tail in H. now apply str_inj.
  - apply append_inv_head in H. cbn [append] in H. injection H as H.
    now apply str_inj.
Qed.

Lemma prefix_append p rest : String.prefix p (p ++ rest) = true.
Proof.
  induction p as [|c p IH]; simpl; [now destruct rest|].
  destruct (Ascii.ascii_dec c c); [exact IH|congruence].
Qed.

(** ** The version scan against the allocation rule of the design *)

(** The example of the design document: versions 1, 2 and 7 and an
    unrelated [data_version_report.csv] give 8, by the code and by the
    rule; an empty folder gives 1. *)
Example next_version_after_1_2_7 :
  fst (get_next_version_number "C" "data.csv" (drive versions_1_2_7 [])) = inr 8
  /\ Design.nextVersion (map f_name versions_1_2_7) "data.csv" = 8
  /\ fst (get_next_version_number "C" "data.csv" (drive [] [])) = inr 1
  /\ Design.nextVersion [] "data.csv" = 1.
Proof. repeat split; reflexivity. Qed.

(** The scan never raises, whatever the names in the folder. *)
Lemma scan_never_raises folder_id base w :
  exists v, fst (get_next_version_number folder_id base w) = inr v /\ 1 <= v.
Proof.
  pose proof (get_next_version_outcome folder_id base w) as H.
  cbv zeta in H. rewrite H.
  destruct (hd false (faults w)); eexists; (split; [reflexivity|]);
    [lia|apply scanned_version_positive].
Qed.

(** C3: where the code leaves the rule.  The folder holds [data_v1.csv]
    and [data_v3.csv.csv].  By the rule the second name is skipped (what is
    left after the [data_v] prefix and the [.csv] suffix is [3.csv], not a
    number) and the next version is 2.  The code removes every occurrence
    of [data_v] and of [.csv], reads [3], and answers 4. *)
Theorem C3_double_extension_counts_as_a_version :
  Design.version_of "data" "csv" "data_v3.csv.csv" = None
  /\ Design.nextVersion (map f_name double_extension) "data.csv" = 2
  /\ Py.int (version_str "data" "csv" "data_v3.csv.csv") = Some 3
  /\ fst (get_next_version_number "C" "data.csv" (drive double_extension []))
     = inr 4.
Proof. repeat split; reflexivity. Qed.

(** The page of the list request is a second way out of the rule: of 101
    versions only the first hundred listed are read. *)
Example scan_reads_one_page_only :
  let fs := (hundred_versions ++ [csv_file "n" "data_v101.csv" "C" "a"])%list in
  fst (get_next_version_number "C" "data.csv" (drive fs [])) = inr 101
  /\ Design.nextVersion (map f_name fs) "data.csv" = 102.
Proof. vm_compute. split; reflexivity. Qed.

(** ** Version names read back *)

Lemma digit_is_plain c :
  is_digit c = true ->
  Py.is_int_space c = false /\ c <> "+"%char /\ c <> "-"%char /\ c <> "."%char.
Proof.
  destruct c as [[] [] [] [] [] [] [] []]; vm_compute; intros H;
    try discriminate H; repeat split; discriminate.
Qed.

Lemma uint_digits d : all_digits (NilEmpty.string_of_uint d).
Proof.
  induction d; intros c; cbn [NilEmpty.string_of_uint Py.has_char];
    try discriminate;
    intros H; apply orb_true_iff in H; destruct H as [H|H]; auto;
    apply Ascii.eqb_eq in H; subst c; reflexivity.
Qed.

Lemma parse_uint_acc d : forall acc prev,
  prev = true \/ d <> Decimal.Nil ->
  Py.parse_digits (Zpos acc) prev (NilEmpty.string_of_uint d)
  = Some (Zpos (Pos.of_uint_acc d acc)).
Proof.
  induction d; intros acc prev Hne;
    try (cbn [NilEmpty.string_of_uint Py.parse_digits Pos.of_uint_acc];
         match goal with
         | |- context [Py.digit_of ?c] =>
             let v := eval vm_compute in (Py.digit_of c) in
             change (Py.digit_of c) with v
         end; cbv iota beta;
         match goal with
         | |- Py.parse_digits ?a true _ = Some (Zpos (Pos.of_uint_acc _ ?b)) =>
             replace a with (Zpos b) by lia
         end; apply IHd; now left).
  simpl. destruct Hne as [->|H]; [reflexivity|congruence].
Qed.

Lemma parse_uint d : forall prev,
  prev = true \/ d <> Decimal.Nil ->
  Py.parse_digits 0 prev (NilEmpty.string_of_uint d)
  = Some (Z.of_N (Pos.of_uint d)).
Proof.
  induction d; intros prev Hne;
    try (cbn [NilEmpty.string_of_uint Py.parse_digits Pos.of_uint];
         match goal with
         | |- context [Py.digit_of ?c] =>
             let v := eval vm_compute in (Py.digit_of c) in
             change (Py.digit_of c) with v
         end; cbv iota beta).
  - simpl. destruct Hne as [->|H]; [reflexivity|congruence].
  - apply IHd. now left.
  - apply (parse_uint_acc d 1). now left.
  - apply (parse_uint_acc d 2). now left.
  - apply (parse_uint_acc d 3). now left.
  - apply (parse_uint_acc d 4). now left.
  - apply (parse_uint_acc d 5). now left.
  - apply (parse_uint_acc d 6). now left.
  - apply (parse_uint_acc d 7). now left.
  - apply (parse_uint_acc d 8). now left.
  - apply (parse_uint_acc d 9). now left.
Qed.

Lemma str_digits v : 0 <= v -> all_digits (Py.str v) /\ Py.str v <> "".
Proof.
  intros Hv. unfold Py.str. destruct v as [|p|p]; [| |lia].
  - split; [|discriminate]. intros c H.
    change (Py.has_char c "0" = true) in H. cbn [Py.has_char] in H.
    apply orb_true_iff in H. destruct H as [H|H]; [|discriminate].
    apply Ascii.eqb_eq in H. subst c. reflexivity.
  - cbn [Z.to_int NilZero.string_of_int].
    pose proof (DecimalPos.Unsigned.to_uint_nonnil p) as Hn.
    destruct (Pos.to_uint p) eqn:E; try congruence;
      (split; [apply uint_digits|discriminate]).
Qed.

Lemma skip_leading_digits s : all_digits s -> Py.skip_leading s = s.
Proof.
  destruct s as [|c s]; [reflexivity|]. intros H.
  cbn [Py.skip_leading].
  assert (Hc : is_digit c = true) by (apply H; cbn [Py.has_char]; now rewrite Ascii.eqb_refl).
  now rewrite (proj1 (digit_is_plain c Hc)).
Qed.

Lemma skip_trailing_digits s : all_digits s -> Py.skip_trailing s = s.
Proof.
  induction s as [|c s IH]; [reflexivity|]. intros H.
  assert (Hc : is_digit c = true) by (apply H; cbn [Py.has_char]; now rewrite Ascii.eqb_refl).
  assert (Hs : all_digits s).
  { intros x Hx. apply H. cbn [Py.has_char]. rewrite Hx. apply orb_true_r. }
  cbn [Py.skip_trailing]. rewrite (IH Hs).
  destruct s; [|reflexivity]. now rewrite (proj1 (digit_is_plain c Hc)).
Qed.

Lemma int_str v : 0 <= v -> Py.int (Py.str v) = Some v.
Proof.
  intros Hv. destruct (str_digits v Hv) as [Hd Hne].
  unfold Py.int.
  rewrite (skip_leading_digits _ Hd), (skip_trailing_digits _ Hd).
  assert (Hparse : Py.parse_digits 0 false (Py.str v) = Some v).
  { unfold Py.str. rewrite <- (DecimalZ.of_to v) at 2.
    destruct v as [|p|p]; [reflexivity| |lia].
    cbn [Z.to_int NilZero.string_of_int Z.of_int]. unfold Z.of_uint.
    pose proof (DecimalPos.Unsigned.to_uint_nonnil p) as Hn.
    unfold NilZero.string_of_uint.
    destruct (Pos.to_uint p) eqn:E; try congruence;
      rewrite <- E; apply parse_uint; right; congruence. }
  destruct (Py.str v) as [|c s] eqn:E; [congruence|].
  assert (Hc : is_digit c = true) by (apply Hd; cbn [Py.has_char]; now rewrite Ascii.eqb_refl).
  destruct (digit_is_plain c Hc) as (_ & Hplus & Hminus & _).
  destruct c as [[] [] [] [] [] [] [] []]; try exact Hparse; congruence.
Qed.

Lemma has_char_append c a b :
  Py.has_char c (a ++ b) = Py.has_char c a || Py.has_char c b.
Proof.
  induction a as [|x a IH]; cbn [append Py.has_char]; [reflexivity|].
  now rewrite IH, orb_assoc.
Qed.

Lemma remove_from_absent c p t :
  Py.has_char c t = false -> Py.remove_from (String c p) 0 t = t.
Proof.
  induction t as [|x t IH]; [reflexivity|]. intros H.
  cbn [Py.has_char] in H. apply orb_false_iff in H. destruct H as [Hx Ht].
  cbn [Py.remove_from String.prefix].
  destruct (Ascii.ascii_dec c x) as [->|_].
  - now rewrite Ascii.eqb_refl in Hx.
  - now rewrite (IH Ht).
Qed.

Lemma remove_from_skip p s : forall t,
  Py.remove_from p (String.length s) (s ++ t) = Py.remove_from p 0 t.
Proof.
  induction s as [|x s IH]; intros t; [reflexivity|].
  cbn [String.length append Py.remove_from]. apply IH.
Qed.

Lemma remove_from_occurrence c p t :
  Py.remove_from (String c p) 0 (String c p ++ t)
  = Py.remove_from (String c p) 0 t.
Proof.
  cbn [append]. cbn [Py.remove_from].
  change (String c (p ++ t)) with (String c p ++ t).
  rewrite prefix_append.
  replace (String.length (String c p) - 1)%nat with (String.length p)
    by (cbn [String.length]; lia).
  apply remove_from_skip.
Qed.

Lemma remove_from_before q p d : forall t,
  Py.has_char q d = false ->
  Py.remove_from (String q p) 0 (d ++ t)
  = d ++ Py.remove_from (String q p) 0 t.
Proof.
  induction d as [|x d IH]; intros t H; [reflexivity|].
  cbn [Py.has_char] in H. apply orb_false_iff in H. destruct H as [Hx Hd].
  cbn [append Py.remove_from String.prefix].
  destruct (Ascii.ascii_dec q x) as [->|_].
  - now rewrite Ascii.eqb_refl in Hx.
  - now rewrite (IH t Hd).
Qed.

Lemma append_nil_r s : s ++ "" = s.
Proof. induction s as [|c s IH]; simpl; [reflexivity|now rewrite IH]. Qed.

Lemma digits_lack c d : all_digits d -> is_digit c = false -> Py.has_char c d = false.
Proof.
  intros Hd Hc. destruct (Py.has_char c d) eqn:E; [|reflexivity].
  apply Hd in E. congruence.
Qed.

Lemma version_str_dotted stem ext c p d :
  stem ++ "_v" = String c p ->
  Py.has_char c (d ++ String "." ext) = false ->
  Py.has_char "." d = false ->
  ext <> "" ->
  version_str stem ext (stem ++ "_v" ++ d ++ "." ++ ext) = d.
Proof.
  intros Hp Hc Hdot Hext. unfold version_str.
  destruct ext as [|e ext]; [congruence|].
  rewrite <- append_assoc, Hp. unfold Py.remove.
  change ("." ++ String e ext) with (String "." (String e ext)) in *.
  rewrite remove_from_occurrence, (remove_from_absent _ _ _ Hc).
  rewrite (remove_from_before _ _ _ _ Hdot).
  rewrite <- (append_nil_r (String "." (String e ext))) at 2.
  rewrite remove_from_occurrence. cbn [Py.remove_from]. apply append_nil_r.
Qed.

Lemma version_str_undotted stem c p d :
  stem ++ "_v" = String c p ->
  Py.has_char c d = false ->
  version_str stem "" (stem ++ "_v" ++ d) = d.
Proof.
  intros Hp Hc. unfold version_str. rewrite <- append_assoc, Hp.
  unfold Py.remove. now rewrite remove_from_occurrence, remove_from_absent.
Qed.

Lemma plain_names_read_back base v :
  plain_base base = true -> 0 <= v ->
  reads_back base (new_filename base v) = true.
Proof.
  unfold plain_base, reads_back, new_filename. intros Hplain Hv.
  destruct (str_digits v Hv) as [Hd _].
  destruct (split_base base) as [[dotted stem] ext] eqn:E.
  destruct (stem ++ "_v") as [|c p] eqn:Hp; [discriminate|].
  apply andb_true_iff in Hplain. destruct Hplain as [Hc Hrest].
  apply negb_true_iff in Hc.
  destruct dotted.
  - apply andb_true_iff in Hrest. destruct Hrest as [Hrest Hext].
    apply andb_true_iff in Hrest. destruct Hrest as [Hnd Hce].
    apply negb_true_iff in Hext, Hnd, Hce.
    apply String.eqb_neq in Hext.
    rewrite (version_str_dotted stem ext c p (Py.str v) Hp).
    + rewrite (int_str v Hv). apply String.eqb_refl.
    + rewrite has_char_append, (digits_lack _ _ Hd Hc). cbn [Py.has_char orb].
      rewrite Ascii.eqb_sym, Hnd, Hce. reflexivity.
    + apply (digits_lack _ _ Hd). reflexivity.
    + exact Hext.
  - apply split_base_undotted in E. destruct E as [-> ->].
    rewrite (version_str_undotted base c p (Py.str v) Hp).
    + rewrite (int_str v Hv). apply String.eqb_refl.
    + apply (digits_lack _ _ Hd Hc).
Qed.

Example csv_filename_is_plain : plain_base CSV_FILENAME = true.
Proof. reflexivity. Qed.

(** ** Reading a file in chunks *)

Lemma substring_skip buf : forall n rest,
  substring (String.length buf) n (buf ++ rest) = substring 0 n rest.
Proof.
  induction buf as [|c buf IH]; intros n rest; [reflexivity|].
  cbn [String.length append substring]. apply IH.
Qed.

(** The first [n] characters of [rest], and what follows them. *)
Lemma substring_split n : forall rest,
  exists tail,
    rest = substring 0 n rest ++ tail
    /\ String.length (substring 0 n rest) = Nat.min n (String.length rest).
Proof.
  induction n as [|n IH]; intros [|c rest]; cbn [substring String.length].
  - now exists "".
  - now exists (String c rest).
  - now exists "".
  - destruct (IH rest) as (tail & Hrest & Hlen). exists tail.
    cbn [append]. rewrite <- Hrest. split; [reflexivity|]. simpl. lia.
Qed.

Section ReadBack.

Variable DataFrame : Type.
Variable read_csv : string -> Exn + DataFrame.
Variable chunksize : nat.
Hypothesis chunksize_positive : (0 < chunksize)%nat.

(** With a turn for every byte still to come and one more, the download
    loop finishes and its buffer holds the whole content of the file. *)
Lemma download_loop_completes file_id f : forall fuel buf rest w,
  calm w = true ->
  lookup_id file_id (files w) = Some f ->
  f_content f = buf ++ rest ->
  (String.length rest < fuel)%nat ->
  exists w',
    download_loop chunksize fuel file_id buf w = (inr (Some (f_content f)), w')
    /\ files w' = files w /\ errors w' = errors w /\ calm w' = true.
Proof.
  induction fuel as [|fuel IH]; intros buf rest w Hcalm Hfile Hcontent Hfuel;
    [lia|].
  cbn [download_loop]. unfold bind at 1, next_chunk, bind at 1.
  rewrite (send_calm _ _ Hcalm). cbn [sent files]. rewrite Hfile.
  cbn [fst snd].
  assert (Hchunk : substring (String.length buf) chunksize (f_content f)
                   = substring 0 chunksize rest)
    by (rewrite Hcontent; apply substring_skip).
  assert (Hsize : String.length (f_content f)
                  = (String.length buf + String.length rest)%nat)
    by (rewrite Hcontent; apply length_append).
  rewrite Hchunk, Hsize.
  destruct (substring_split chunksize rest) as (tail & Hrest & Hlen).
  set (chunk := substring 0 chunksize rest) in *.
  destruct (_ <=? _)%nat eqn:Hdone.
  - apply Nat.leb_le in Hdone.
    assert (tail = "").
    { apply (f_equal String.length) in Hrest. rewrite length_append in Hrest.
      destruct tail; [reflexivity|]. simpl in Hrest. lia. }
    subst tail. rewrite append_nil_r in Hrest.
    eexists. split; [unfold ret; now rewrite Hcontent, Hrest|].
    repeat split. now apply sent_calm.
  - apply Nat.leb_gt in Hdone.
    destruct (IH (buf ++ chunk) tail (sent (FilesGetMedia file_id) w))
      as (w' & Hrun & Hfiles & Herrors & Hcalm').
    + now apply sent_calm.
    + exact Hfile.
    + now rewrite append_assoc, <- Hrest.
    + apply (f_equal String.length) in Hrest. rewrite length_append in Hrest.
      lia.
    + exists w'. now rewrite Hrun.
Qed.

End ReadBack.

(** * Further properties of the code

    Properties of [app.py] beyond the design document's: the split and the
    version names, the readers, the download, interleaved saves, the
    allow-list and the search of [main]. *)

(** ** The split and the version names *)
Lemma rsplit1_found c s a b :
  Py.rsplit1 c s = Some (a, b) -> s = a ++ String c b /\ Py.has_char c b = false.
Proof.
  revert a b. induction s as [|d s IH]; intros a b H; [discriminate|].
  cbn [Py.rsplit1] in H.
  destruct (Py.rsplit1 c s) as [[a' b']|] eqn:E.
  - injection H as <- <-. destruct (IH a' b' eq_refl) as [-> Hb]. auto.
  - destruct (Ascii.eqb d c) eqn:Hd; [|discriminate]. injection H as <- <-.
    apply Ascii.eqb_eq in Hd. subst d. split; [reflexivity|].
    destruct (Py.has_char c s) eqn:Hs; [|reflexivity].
    exfalso. clear IH. induction s as [|x s IHs]; [discriminate|].
    cbn [Py.has_char Py.rsplit1] in *.
    destruct (Py.rsplit1 c s) as [[? ?]|]; [discriminate|].
    destruct (Ascii.eqb x c); [discriminate|]. cbn [orb] in Hs. auto.
Qed.

Lemma rsplit1_present c s :
  Py.has_char c s = true -> Py.rsplit1 c s <> None.
Proof.
  intros H E. induction s as [|x s IH]; [discriminate|].
  cbn [Py.has_char Py.rsplit1] in *.
  destruct (Py.rsplit1 c s) as [[? ?]|]; [discriminate|].
  destruct (Ascii.eqb x c); [discriminate|]. cbn [orb] in H. auto.
Qed.

Lemma split_base_rebuilds base :
  let '(dotted, stem, ext) := split_base base in
  (if dotted then base = stem ++ "." ++ ext else base = stem /\ ext = "")
  /\ Py.has_char "." ext = false
  /\ Py.has_char "." base = dotted.
Proof.
  unfold split_base. destruct (Py.has_char "." base) eqn:Hdot.
  - destruct (Py.rsplit1 "." base) as [[stem ext]|] eqn:E.
    + apply rsplit1_found in E. destruct E as [-> Hext]. auto.
    + now apply rsplit1_present in Hdot.
  - auto.
Qed.

(** X1.  The split loses nothing: a base filename with a dot is its stem,
    a dot and its extension, and the extension has no dot (the split is at
    the last one); a base filename without a dot is its own stem, with an
    empty extension. *)
Theorem X1_split_rebuilds_the_base_filename base :
  let '(dotted, stem, ext) := split_base base in
  (if dotted then base = stem ++ "." ++ ext else base = stem /\ ext = "")
  /\ Py.has_char "." ext = false
  /\ Py.has_char "." base = dotted.
Proof. apply split_base_rebuilds. Qed.

(** X2.  For one base filename, two version numbers give the same
    versioned name only when they are the same number. *)
Theorem X2_version_names_are_injective base v v' :
  new_filename base v = new_filename base v' <-> v = v'.
Proof. split; [apply new_filename_inj|now intros ->]. Qed.

Lemma X2_same_name_same_number :
  new_filename CSV_FILENAME 3 = new_filename CSV_FILENAME (1 + 2)
  /\ 3 = 1 + 2.
Proof.
  split; [reflexivity|].
  apply (proj1 (X2_version_names_are_injective CSV_FILENAME 3 (1 + 2))).
  reflexivity.
Defined.

Lemma new_filename_length base v :
  (String.length base + 3 <= String.length (new_filename base v))%nat.
Proof.
  assert (Hs : (1 <= String.length (Py.str v))%nat).
  { unfold Py.str. destruct v as [|p|p]; cbn [Z.to_int NilZero.string_of_int];
      try (cbn; lia);
      pose proof (DecimalPos.Unsigned.to_uint_nonnil p) as Hn;
      unfold NilZero.string_of_uint;
      destruct (Pos.to_uint p); try congruence; cbn [NilEmpty.string_of_uint String.length]; lia. }
  pose proof (split_base_rebuilds base) as H.
  unfold new_filename. destruct (split_base base) as [[[|] stem] ext].
  - destruct H as (-> & _).
    repeat (rewrite length_append || cbn [String.length append]). lia.
  - repeat (rewrite length_append || cbn [String.length append]). lia.
Qed.

(** X3.  No versioned name is the base filename itself: it is at least
    three characters longer.  A save therefore never creates a file under
    the original's name. *)
Theorem X3_a_version_name_is_never_the_base_name base v :
  new_filename base v <> base
  /\ (String.length base + 3 <= String.length (new_filename base v))%nat.
Proof.
  pose proof (new_filename_length base v) as H. split; [|exact H].
  intros E. rewrite E in H. lia.
Qed.


(** ** What the scan reads from a name *)
Lemma plain_names_read_back_number base v :
  plain_base base = true -> 0 <= v ->
  Py.int (version_str (name_part base) (extension base) (new_filename base v))
  = Some v.
Proof.
  intros Hplain Hv. pose proof (plain_names_read_back base v Hplain Hv) as H.
  unfold reads_back in H. unfold name_part, extension.
  destruct (split_base base) as [[d n] e].
  destruct (Py.int _) as [u|]; [|discriminate].
  apply String.eqb_eq, new_filename_inj in H. now subst.
Qed.

(** X4.  For a plain base filename, what the scan reads from the name that
    the upload gives to version [v] is [v]: naming and parsing are inverse
    to each other. *)
Theorem X4_plain_version_names_read_back base v :
  plain_base base = true -> 0 <= v ->
  Py.int (version_str (name_part base) (extension base) (new_filename base v))
  = Some v.
Proof. apply plain_names_read_back_number. Qed.

Lemma X4_version_12_of_the_csv :
  Py.int (version_str (name_part CSV_FILENAME) (extension CSV_FILENAME)
            (new_filename CSV_FILENAME 12)) = Some 12.
Proof.
  apply (X4_plain_version_names_read_back CSV_FILENAME 12).
  - reflexivity.
  - lia.
Defined.

Lemma max_version_bounds n e found :
  forall f u, In f found -> Py.int (version_str n e (f_name f)) = Some u ->
  u <= max_version_of n e found.
Proof.
  unfold max_version_of.
  assert (Hmono : forall l m, m <= fold_left (bump_version n e) l m).
  { induction l as [|g l IH]; intros m; simpl; [lia|].
    etransitivity; [|apply IH]. unfold bump_version. destruct (Py.int _); lia. }
  assert (H : forall l m f u, In f l ->
            Py.int (version_str n e (f_name f)) = Some u ->
            u <= fold_left (bump_version n e) l m).
  { induction l as [|g l IH]; intros m f u Hin Hu; [destruct Hin|].
    simpl. destruct Hin as [->|Hin].
    - etransitivity; [|apply Hmono]. unfold bump_version. rewrite Hu. lia.
    - now apply (IH _ f u). }
  intros f u. apply H.
Qed.

(** X5.  For ASCII file names, a quotable folder id and stem, and with
    the transport up: the number that the scan returns is greater than
    every number it reads from a file name on its page, and at least 1; for
    a plain base filename the name it leads to is therefore not the name of
    any such file.  The scan changes no file. *)
Theorem X5_scan_exceeds_every_number_it_reads folder_id base w f u :
  calm w = true ->
  quotable folder_id = true ->
  quotable (name_part base) = true ->
  Py.isascii base = true ->
  Forall (fun g => Py.isascii (f_name g) = true) (files w) ->
  In f (firstn 100 (selected (version_query folder_id base) (files w))) ->
  Py.int (version_str (name_part base) (extension base) (f_name f)) = Some u ->
  exists v w',
    get_next_version_number folder_id base w = (inr v, w')
    /\ u < v /\ 1 <= v /\ files w' = files w
    /\ (plain_base base = true -> f_name f <> new_filename base v).
Proof.
  intros Hcalm _ _ _ _ Hin Hu.
  pose proof (get_next_version_outcome folder_id base w) as Hrun.
  cbv zeta in Hrun. rewrite (calm_hd _ Hcalm) in Hrun.
  eexists _, _. split; [exact Hrun|].
  pose proof (max_version_bounds _ _ _ f u Hin Hu) as Hle.
  set (found := firstn 100 _) in *.
  pose proof (scanned_version_positive base found) as Hpos.
  assert (Hlt : u < scanned_version base found) by (unfold scanned_version; lia).
  split; [exact Hlt|]. split; [exact Hpos|]. split; [reflexivity|].
  intros Hplain E. rewrite E in Hu.
  rewrite (plain_names_read_back_number base _ Hplain) in Hu by lia.
  injection Hu as Hu. lia.
Qed.

Lemma X5_scan_after_1_2_7 :
  exists v w',
    get_next_version_number "C" "data.csv" (drive versions_1_2_7 [])
      = (inr v, w')
    /\ 7 < v /\ 1 <= v /\ files w' = files (drive versions_1_2_7 [])
    /\ (plain_base "data.csv" = true ->
        f_name (csv_file "v7" "data_v7.csv" "C" "a,d") <> new_filename "data.csv" v).
Proof.
  apply (X5_scan_exceeds_every_number_it_reads "C" "data.csv"
           (drive versions_1_2_7 []) (csv_file "v7" "data_v7.csv" "C" "a,d") 7).
  - reflexivity.
  - reflexivity.
  - reflexivity.
  - reflexivity.
  - repeat constructor.
  - vm_compute. auto.
  - reflexivity.
Defined.

(** A name with one of the separators 0x1c to 0x1f next to the digits is
    not read as a number, and is skipped. *)
Example separator_is_not_skipped :
  Py.int (String (ascii_of_nat 28) "5") = None
  /\ Py.int (String "5" (String (ascii_of_nat 31) "")) = None
  /\ Py.int (String (ascii_of_nat 9) "5 ") = Some 5.
Proof. repeat split; reflexivity. Qed.

(** ** The resolver and the locator, whatever the store answers *)
Lemma firstn_head {A} n (l : list A) x xs :
  firstn n l = x :: xs -> exists others, l = x :: others.
Proof.
  destruct n as [|n]; [discriminate|]. destruct l as [|y l]; [discriminate|].
  cbn [firstn]. intros [= -> _]. now eexists.
Qed.

Lemma firstn_empty {A} n (l : list A) :
  firstn (S n) l = [] -> l = [].
Proof. destruct l; [reflexivity|discriminate]. Qed.

Lemma resolve_outcome path : forall anchor w,
  exists r w' rs,
    find_folder_by_path anchor path w = (inr r, w')
    /\ files w' = files w
    /\ calls w' = (calls w ++ rs)%list
    /\ Forall (fun q => is_list_request q = true) rs
    /\ (List.length rs <= List.length path)%nat
    /\ forall id, r = Some id ->
         exists ids,
           first_listed_chain (files w) anchor path ids
           /\ last ids anchor = id
           /\ rs = lookups anchor path ids
           /\ errors w' = errors w.
Proof.
  induction path as [|seg path IH]; intros anchor w.
  - exists (Some anchor), w, []. cbn [find_folder_by_path ret].
    rewrite app_nil_r. repeat split; auto.
    intros id [= <-]. exists []. repeat split.
  - rewrite find_folder_step, files_list_outcome.
    destruct (hd false (faults w)).
    + eexists None, _, [_]. split; [reflexivity|].
      repeat split; auto; try (simpl; lia). discriminate.
    + destruct (firstn 10 _) as [|f fs] eqn:Hsel.
      * eexists None, _, [_]. split; [reflexivity|].
        repeat split; auto; try (simpl; lia). discriminate.
      * destruct (IH (f_id f) (sent (FilesList (folder_query seg anchor) 10) w))
          as (r & w' & rs & Hrun & Hfiles & Hcalls & Hlist & Hlen & Hsome).
        exists r, w', (FilesList (folder_query seg anchor) 10 :: rs).
        split; [exact Hrun|]. split; [exact Hfiles|].
        split; [rewrite Hcalls; cbn [sent calls]; now rewrite <- app_assoc|].
        split; [now constructor|]. split; [simpl; lia|].
        intros id Hid. destruct (Hsome id Hid) as (ids & Hchain & Hlast & Hrs & Herr).
        exists (f_id f :: ids). apply firstn_head in Hsel.
        destruct Hsel as [others Hsel].
        split; [split; [now exists f, others|exact Hchain]|].
        split; [now rewrite last_cons|]. split; [now rewrite Hrs|exact Herr].
Qed.

Lemma folder_query_holds seg parent f :
  matches (folder_query seg parent) f = true <->
  f_name f = seg /\ In parent (f_parents f) /\ f_mimeType f = folder_mime
  /\ f_trashed f = false.
Proof.
  unfold matches, folder_query. cbn [forallb term_holds].
  rewrite !andb_true_iff, !String.eqb_eq, existsb_exists.
  split.
  - intros (Hn & (p & Hin & Hp) & Hm & Ht & _). apply String.eqb_eq in Hp.
    subst p. destruct (f_trashed f); [discriminate|]. auto.
  - intros (Hn & Hin & Hm & Ht). rewrite Ht. repeat split; auto.
    exists parent. split; [exact Hin|apply String.eqb_refl].
Qed.

Lemma find_file_outcome folder_id filename w :
  exists r w',
    find_file_in_folder folder_id filename w = (inr r, w')
    /\ files w' = files w
    /\ calls w' = (calls w ++ [FilesList (file_query filename folder_id) 10])%list
    /\ (forall f, r = Some f ->
          (exists others,
             selected (file_query filename folder_id) (files w) = f :: others)
          /\ errors w' = errors w)
    /\ (r = None -> calm w = true ->
        selected (file_query filename folder_id) (files w) = []).
Proof.
  rewrite find_file_run, files_list_outcome.
  destruct (hd false (faults w)) eqn:Hhd.
  - eexists None, _. split; [reflexivity|]. repeat split; try discriminate.
    intros _ Hcalm. rewrite (calm_hd _ Hcalm) in Hhd. discriminate.
  - destruct (firstn 10 _) as [|f fs] eqn:Hsel.
    + eexists None, _. split; [reflexivity|]. repeat split; try discriminate.
      intros _ _. now apply firstn_empty in Hsel.
    + eexists (Some f), _. split; [reflexivity|]. split; [reflexivity|].
      split; [reflexivity|]. split; [|discriminate].
      intros g [= <-]. split; [|reflexivity]. now apply firstn_head in Hsel.
Qed.

Lemma first_listed_chain_end fs path : forall anchor ids,
  path <> [] ->
  first_listed_chain fs anchor path ids ->
  exists f, In f fs /\ f_id f = last ids anchor /\ f_name f = last path ""
            /\ f_mimeType f = folder_mime /\ f_trashed f = false.
Proof.
  induction path as [|seg path IH]; intros anchor [|id ids] Hne Hchain;
    simpl in Hchain; try contradiction.
  destruct Hchain as [(f & others & Hsel & Hid) Hrest].
  destruct path as [|seg' path].
  - destruct ids; [|contradiction]. exists f.
    assert (Hin : In f (selected (folder_query seg anchor) fs))
      by (rewrite Hsel; now left).
    apply filter_In in Hin. destruct Hin as [Hin Hm].
    apply folder_query_holds in Hm. destruct Hm as (Hn & _ & Hmime & Ht).
    cbn [last]. auto.
  - destruct (IH id ids) as (g & Hg); [discriminate|exact Hrest|].
    exists g. rewrite last_cons.
    change (last (seg :: seg' :: path) "") with (last (seg' :: path) "").
    exact Hg.
Qed.

(** X6.  For a quotable anchor, quotable segments and a store whose ids
    are quotable: whenever the resolver returns an id, with or without
    planned failures, that id ends a chain of first-listed live folders
    named after the segments, one list request was sent per segment and no
    error was shown; for a non-empty path the id is the id of a live folder
    of the store named after the last segment. *)
Theorem X6_resolved_folder_ends_a_real_chain anchor path w id w' :
  quotable anchor = true ->
  Forall (fun seg => quotable seg = true) path ->
  Forall (fun f => quotable (f_id f) = true) (files w) ->
  find_folder_by_path anchor path w = (inr (Some id), w') ->
  (exists ids,
     first_listed_chain (files w) anchor path ids
     /\ last ids anchor = id
     /\ calls w' = (calls w ++ lookups anchor path ids)%list
     /\ errors w' = errors w)
  /\ (path <> [] ->
      exists f, In f (files w) /\ f_id f = id /\ f_name f = last path ""
                /\ f_mimeType f = folder_mime /\ f_trashed f = false).
Proof.
  intros _ _ _ Hrun.
  destruct (resolve_outcome path anchor w)
    as (r & w1 & rs & Hrun' & _ & Hcalls & _ & _ & Hsome).
  rewrite Hrun in Hrun'. injection Hrun' as <- <-.
  destruct (Hsome id eq_refl) as (ids & Hchain & Hlast & Hrs & Herr).
  split.
  - exists ids. rewrite <- Hrs. auto.
  - intros Hne. destruct (first_listed_chain_end _ _ _ _ Hne Hchain) as (f & Hf).
    exists f. now rewrite <- Hlast.
Qed.

Lemma X6_results_folder_of_the_participant :
  let path := ["ActiGraph"; "PID123"; "output_PID123"; "results"] in
  let w' := snd (find_folder_by_path "R" path (drive participant_tree [])) in
  find_folder_by_path "R" path (drive participant_tree [])
    = (inr (Some "C"), w')
  /\ (exists ids,
        first_listed_chain participant_tree "R" path ids
        /\ last ids "R" = "C"
        /\ calls w' = ([] ++ lookups "R" path ids)%list
        /\ errors w' = [])
  /\ (path <> [] ->
      exists f, In f participant_tree /\ f_id f = "C"
                /\ f_name f = last path ""
                /\ f_mimeType f = folder_mime /\ f_trashed f = false).
Proof.
  cbv zeta. split; [reflexivity|].
  apply (X6_resolved_folder_ends_a_real_chain "R"
           ["ActiGraph"; "PID123"; "output_PID123"; "results"]
           (drive participant_tree []) "C").
  - reflexivity.
  - repeat constructor.
  - repeat constructor.
  - reflexivity.
Defined.

(** X7.  The resolver, the locator and the version scan never raise and
    never change the store's files, whatever the fault plan: the resolver
    sends at most one list request per segment and nothing else, the
    locator and the scan exactly one list request each. *)
Theorem X7_readers_leave_the_store_alone
    anchor path folder_id filename base w :
  (exists r w' rs,
     find_folder_by_path anchor path w = (inr r, w')
     /\ files w' = files w
     /\ calls w' = (calls w ++ rs)%list
     /\ Forall (fun q => is_list_request q = true) rs
     /\ (List.length rs <= List.length path)%nat)
  /\ (exists r w',
        find_file_in_folder folder_id filename w = (inr r, w')
        /\ files w' = files w
        /\ calls w' = (calls w ++ [FilesList (file_query filename folder_id) 10])%list)
  /\ (exists v w',
        get_next_version_number folder_id base w = (inr v, w')
        /\ files w' = files w
        /\ calls w' = (calls w ++ [FilesList (version_query folder_id base) 100])%list).
Proof.
  split; [|split].
  - destruct (resolve_outcome path anchor w)
      as (r & w' & rs & Hrun & Hfiles & Hcalls & Hlist & Hlen & _).
    now exists r, w', rs.
  - destruct (find_file_outcome folder_id filename w)
      as (r & w' & Hrun & Hfiles & Hcalls & _).
    now exists r, w'.
  - pose proof (get_next_version_outcome folder_id base w) as Hrun.
    cbv zeta in Hrun. rewrite Hrun.
    destruct (hd false (faults w)); eexists _, _; repeat split.
Qed.

(** ** [download_csv_content] *)
Section DownloadFacts.

Variable DataFrame : Type.
Variable read_csv : string -> Exn + DataFrame.
Variable chunksize : nat.

Lemma download_outcome_of_loop fuel file_id w bytes w1 :
  download_loop chunksize fuel file_id "" w = (inr (Some bytes), w1) ->
  exists w',
    download_csv_content read_csv chunksize fuel file_id w
      = (inr (Some (parsed DataFrame read_csv bytes)), w')
    /\ files w' = files w1.
Proof.
  intros Hloop. unfold download_csv_content, try_except, bind at 1.
  rewrite Hloop. unfold bind, lift, parsed.
  destruct (read_csv bytes); eexists; split; reflexivity.
Qed.

(** X9.  With a positive chunk size, the transport up and the file in the
    store, the download loop ends within one turn per byte plus one, and
    [read_csv] is given the whole content of the file: the result is the
    table it reads, or Python's [None] when it raises.  No file changes. *)
Theorem X9_download_hands_the_whole_file_to_the_reader file_id f fuel w :
  (0 < chunksize)%nat ->
  calm w = true ->
  lookup_id file_id (files w) = Some f ->
  (String.length (f_content f) < fuel)%nat ->
  exists w',
    download_csv_content read_csv chunksize fuel file_id w
      = (inr (Some (parsed DataFrame read_csv (f_content f))), w')
    /\ files w' = files w.
Proof.
  intros Hchunk Hcalm Hfile Hfuel.
  destruct (download_loop_completes chunksize Hchunk file_id f fuel ""
              (f_content f) w Hcalm Hfile eq_refl Hfuel)
    as (w1 & Hrun & Hfiles & _).
  destruct (download_outcome_of_loop _ _ _ _ _ Hrun) as (w' & Hdl & Hf').
  exists w'. split; [exact Hdl|congruence].
Qed.

(** X10.  When the first chunk request fails in transport, or the id is
    not in the store, the download returns Python's [None] after that one
    request and shows "Error downloading CSV file" with the cause. *)
Theorem X10_failed_download_returns_none file_id fuel w :
  hd false (faults w) = true \/ lookup_id file_id (files w) = None ->
  let e := if hd false (faults w) then TransportError else FileNotFound in
  download_csv_content read_csv chunksize (S fuel) file_id w
  = (inr (Some None),
     shown ("Error downloading CSV file: " ++ exn_str e)
           (sent (FilesGetMedia file_id) w)).
Proof.
  intros H. cbv zeta.
  unfold download_csv_content, try_except, bind at 1. cbn [download_loop].
  unfold bind at 1, next_chunk, bind at 1. rewrite send_outcome.
  destruct (hd false (faults w)); [reflexivity|].
  destruct H as [H|H]; [discriminate|]. cbn [sent files]. rewrite H. reflexivity.
Qed.

End DownloadFacts.

Lemma X9_download_in_chunks_of_two :
  exists w',
    download_csv_content (fun bytes : string => @inr Exn csv_text bytes) 2 10
      "v2" (drive versions_1_2 [])
      = (inr (Some (parsed csv_text (fun bytes => inr bytes)
                      (f_content (csv_file "v2" "data_v2.csv" "C" "a,c")))), w')
    /\ files w' = files (drive versions_1_2 []).
Proof.
  apply (X9_download_hands_the_whole_file_to_the_reader csv_text
           (fun bytes => inr bytes) 2 "v2"
           (csv_file "v2" "data_v2.csv" "C" "a,c") 10 (drive versions_1_2 [])).
  - lia.
  - reflexivity.
  - reflexivity.
  - vm_compute. lia.
Defined.

Lemma X10_download_of_an_unknown_id :
  let w := drive versions_1_2 [] in
  let e := if hd false (faults w) then TransportError else FileNotFound in
  download_csv_content (fun bytes : string => @inr Exn csv_text bytes) 2 1
    "gone" w
  = (inr (Some None),
     shown ("Error downloading CSV file: " ++ exn_str e)
           (sent (FilesGetMedia "gone") w)).
Proof.
  apply (X10_failed_download_returns_none csv_text (fun bytes => inr bytes) 2
           "gone" 0 (drive versions_1_2 [])).
  right. reflexivity.
Defined.

(** ** Saves, alone and interleaved *)
Section SaveFacts.

Variable DataFrame : Type.
Variable to_csv : DataFrame -> string.
Variable MediaFileUpload : string -> Exn + string.

Lemma create_version_success folder_id base (df : DataFrame) v w f w' :
  create_version to_csv MediaFileUpload folder_id base df v w = (inr f, w') ->
  exists media,
    MediaFileUpload (to_csv df) = inr media
    /\ f = created_file (files w) (new_filename base v) [folder_id] "text/csv" media
    /\ w' = stored f (sent (FilesCreate (new_filename base v) [folder_id] media) w).
Proof.
  rewrite create_version_outcome.
  destruct (MediaFileUpload (to_csv df)) as [e|media]; [discriminate|].
  rewrite files_create_outcome. cbv zeta.
  destruct (hd false (faults w)); [discriminate|].
  destruct (unique_names w && name_taken _ _ _); [discriminate|].
  intros [= <- <-]. now exists media.
Qed.

Lemma create_version_failure folder_id base (df : DataFrame) v w e w' :
  create_version to_csv MediaFileUpload folder_id base df v w = (inl e, w') ->
  files w' = files w.
Proof.
  rewrite create_version_outcome.
  destruct (MediaFileUpload (to_csv df)) as [e'|media]; [now intros [= _ <-]|].
  rewrite files_create_outcome. cbv zeta.
  destruct (hd false (faults w)); [now intros [= _ <-]|].
  destruct (unique_names w && name_taken _ _ _); [now intros [= _ <-]|].
  discriminate.
Qed.

Lemma writer_step_adds_at_most_one folder_id base (df : DataFrame) wr w :
  exists added,
    files (snd (writer_step to_csv MediaFileUpload folder_id base df wr w))
      = (files w ++ added)%list
    /\ (List.length added
        + pending (fst (writer_step to_csv MediaFileUpload folder_id base df wr w))
        <= pending wr)%nat
    /\ Forall (version_of_base folder_id base) added.
Proof.
  destruct wr as [|v|r].
  - cbn [writer_step].
    pose proof (get_next_version_outcome folder_id base w) as Hscan.
    cbv zeta in Hscan. rewrite Hscan.
    exists []. rewrite app_nil_r.
    destruct (hd false (faults w)); cbn; repeat split; auto.
  - rewrite create_step_outcome.
    destruct (create_version _ _ _ _ _ _ _) as [[e|f] w'] eqn:Hcreate.
    + apply create_version_failure in Hcreate. exists [].
      rewrite app_nil_r. cbn. repeat split; auto.
    + apply create_version_success in Hcreate.
      destruct Hcreate as (media & _ & Hf & ->). exists [f].
      cbn. repeat split; auto. constructor; [|constructor].
      rewrite Hf. split; [now exists v|reflexivity].
  - exists []. rewrite app_nil_r. cbn. repeat split; auto.
Qed.

Lemma run_two_adds_at_most_two folder_id base (df1 df2 : DataFrame) schedule :
  forall a b w,
  let '(a', b', w') :=
    run_two to_csv MediaFileUpload folder_id base df1 df2 schedule a b w in
  exists added,
    files w' = (files w ++ added)%list
    /\ (List.length added + pending a' + pending b' <= pending a + pending b)%nat
    /\ Forall (version_of_base folder_id base) added.
Proof.
  induction schedule as [|[|] schedule IH]; intros a b w.
  - cbn [run_two]. exists []. rewrite app_nil_r. repeat split; auto.
  - cbn [run_two].
    destruct (writer_step_adds_at_most_one folder_id base df2 b w)
      as (added1 & Hfiles1 & Hlen1 & Hall1).
    destruct (writer_step _ _ _ _ df2 b w) as [b1 w1]. cbn [fst snd] in *.
    specialize (IH a b1 w1).
    destruct (run_two _ _ _ _ _ _ schedule a b1 w1) as [[a' b'] w'].
    destruct IH as (added2 & Hfiles2 & Hlen2 & Hall2).
    exists (added1 ++ added2)%list.
    split; [now rewrite Hfiles2, Hfiles1, app_assoc|].
    split; [rewrite length_app; lia|]. apply Forall_app. auto.
  - cbn [run_two].
    destruct (writer_step_adds_at_most_one folder_id base df1 a w)
      as (added1 & Hfiles1 & Hlen1 & Hall1).
    destruct (writer_step _ _ _ _ df1 a w) as [a1 w1]. cbn [fst snd] in *.
    specialize (IH a1 b w1).
    destruct (run_two _ _ _ _ _ _ schedule a1 b w1) as [[a' b'] w'].
    destruct IH as (added2 & Hfiles2 & Hlen2 & Hall2).
    exists (added1 ++ added2)%list.
    split; [now rewrite Hfiles2, Hfiles1, app_assoc|].
    split; [rewrite length_app; lia|]. apply Forall_app. auto.
Qed.

(** X13.  However the requests of two saves of the same base filename
    interleave, and whatever fails, the store afterwards holds the files it
    held, in the same order, followed by at most two new files, each named
    as a version of the base filename and lying in the target folder. *)
Theorem X13_interleaved_saves_only_add_versions
    folder_id base (df1 df2 : DataFrame) schedule w :
  let '(a', b', w') :=
    run_two to_csv MediaFileUpload folder_id base df1 df2 schedule Idle Idle w in
  exists added,
    files w' = (files w ++ added)%list
    /\ (List.length added <= 2)%nat
    /\ Forall (version_of_base folder_id base) added.
Proof.
  pose proof (run_two_adds_at_most_two folder_id base df1 df2 schedule
                Idle Idle w) as H.
  destruct (run_two _ _ _ _ _ _ schedule Idle Idle w) as [[a' b'] w'].
  destruct H as (added & Hfiles & Hlen & Hall). exists added.
  cbn [pending] in Hlen. repeat split; auto. lia.
Qed.

End SaveFacts.

(** ** [get_authorized_users] and [check_user_authorization] *)
Lemma lower_char_facts c :
  Py.lower_char (Py.lower_char c) = Py.lower_char c
  /\ Py.is_space (Py.lower_char c) = Py.is_space c.
Proof. destruct c as [[] [] [] [] [] [] [] []]; split; reflexivity. Qed.

Lemma lower_idem s : Py.lower (Py.lower s) = Py.lower s.
Proof.
  induction s as [|c s IH]; [reflexivity|].
  cbn [Py.lower]. now rewrite IH, (proj1 (lower_char_facts c)).
Qed.

Lemma lstrip_lower s : Py.lstrip (Py.lower s) = Py.lower (Py.lstrip s).
Proof.
  induction s as [|c s IH]; [reflexivity|].
  cbn [Py.lower Py.lstrip]. rewrite (proj2 (lower_char_facts c)).
  destruct (Py.is_space c); [exact IH|reflexivity].
Qed.

Lemma rstrip_lower s : Py.rstrip (Py.lower s) = Py.lower (Py.rstrip s).
Proof.
  induction s as [|c s IH]; [reflexivity|].
  cbn [Py.lower Py.rstrip]. rewrite IH, (proj2 (lower_char_facts c)).
  destruct (Py.rstrip s); [destruct (Py.is_space c)|]; reflexivity.
Qed.

Lemma rstrip_idem s : Py.rstrip (Py.rstrip s) = Py.rstrip s.
Proof.
  induction s as [|c s IH]; [reflexivity|].
  cbn [Py.rstrip]. destruct (Py.rstrip s) as [|d r] eqn:E.
  - destruct (Py.is_space c) eqn:Hc; [reflexivity|].
    cbn [Py.rstrip]. now rewrite Hc.
  - cbn [Py.rstrip]. cbn [Py.rstrip] in IH. now rewrite IH.
Qed.

Lemma lstrip_starts_clean s : starts_clean (Py.lstrip s).
Proof.
  induction s as [|c s IH]; [exact I|].
  cbn [Py.lstrip]. destruct (Py.is_space c) eqn:Hc; [exact IH|exact Hc].
Qed.

Lemma lstrip_of_clean s : starts_clean s -> Py.lstrip (Py.rstrip s) = Py.rstrip s.
Proof.
  destruct s as [|c s]; [reflexivity|]. cbn [starts_clean]. intros Hc.
  cbn [Py.rstrip]. rewrite Hc.
  destruct (Py.rstrip s); cbn [Py.lstrip]; now rewrite Hc.
Qed.

Lemma strip_idem s : Py.strip (Py.strip s) = Py.strip s.
Proof.
  unfold Py.strip. rewrite (lstrip_of_clean _ (lstrip_starts_clean s)).
  apply rstrip_idem.
Qed.

Lemma strip_lower s : Py.strip (Py.lower s) = Py.lower (Py.strip s).
Proof. unfold Py.strip. now rewrite lstrip_lower, rstrip_lower. Qed.

Lemma emails_of_spec values e :
  In e (emails_of values) <->
  exists first rest,
    In (first :: rest) values /\ Py.strip first <> ""
    /\ e = Py.lower (Py.strip first).
Proof.
  induction values as [|row values IH]; cbn [emails_of].
  - split; [intros []|intros (? & ? & [] & _)].
  - destruct row as [|first rest].
    + rewrite IH. split.
      * intros (f & r & Hin & H). exists f, r. split; [now right|exact H].
      * intros (f & r & [Hin|Hin] & H); [discriminate|now exists f, r].
    + destruct (Py.strip first) as [|c t] eqn:E.
      * rewrite IH. split.
        -- intros (f & r & Hin & H). exists f, r. split; [now right|exact H].
        -- intros (f & r & [Hin|Hin] & Hne & He); [|now exists f, r].
           injection Hin as <- <-. congruence.
      * cbn [In]. rewrite IH. split.
        -- intros [<-|(f & r & Hin & H)].
           ++ exists first, rest. rewrite E. repeat split; [now left|discriminate].
           ++ exists f, r. split; [now right|exact H].
        -- intros (f & r & [Hin|Hin] & Hne & He).
           ++ injection Hin as <- <-. left. now rewrite He, E.
           ++ right. now exists f, r.
Qed.

(** X14.  For a sheet of ASCII cells, every email that
    [get_authorized_users] returns is not empty, has no whitespace at either
    end and is in lower case. *)
Theorem X14_allow_list_entries_are_normal fetch e :
  ascii_sheet fetch = true ->
  In e (fst (get_authorized_users fetch)) ->
  e <> "" /\ Py.strip e = e /\ Py.lower e = e.
Proof.
  intros _.
  destruct fetch as [|x|values]; cbn [get_authorized_users fst];
    try (intros []).
  intros Hin. apply emails_of_spec in Hin.
  destruct Hin as (first & rest & _ & Hne & ->).
  split; [|split].
  - destruct (Py.strip first); [congruence|discriminate].
  - now rewrite strip_lower, strip_idem.
  - apply lower_idem.
Qed.

Lemma X14_the_admin_entry :
  "admin@stonybrook.edu" <> ""
  /\ Py.strip "admin@stonybrook.edu" = "admin@stonybrook.edu"
  /\ Py.lower "admin@stonybrook.edu" = "admin@stonybrook.edu".
Proof.
  apply (X14_allow_list_entries_are_normal (Fetched allowlist_sheet)).
  - reflexivity.
  - left. reflexivity.
Defined.

(** X15.  For a sheet of ASCII cells and an ASCII email: the email is
    authorized exactly when the sheet was fetched and some row's first
    cell, stripped of surrounding whitespace, is not empty and equals the
    email up to letter case.  In particular nobody is authorized when the
    fetch fails, and the typed email is not stripped. *)
Theorem X15_authorized_iff_listed fetch user_email :
  ascii_sheet fetch = true ->
  Py.isascii user_email = true ->
  (check_user_authorization fetch user_email = true <->
   exists values first rest,
     fetch = Fetched values
     /\ In (first :: rest) values
     /\ Py.strip first <> ""
     /\ Py.lower (Py.strip first) = Py.lower user_email).
Proof.
  intros _ _.
  unfold check_user_authorization. rewrite existsb_exists. split.
  - intros (e & Hin & He). apply String.eqb_eq in He.
    destruct fetch as [|x|values]; cbn [get_authorized_users fst] in Hin;
      try destruct Hin.
    apply emails_of_spec in Hin. destruct Hin as (first & rest & Hin & Hne & ->).
    now exists values, first, rest.
  - intros (values & first & rest & -> & Hin & Hne & He).
    exists (Py.lower user_email). split; [|apply String.eqb_refl].
    cbn [get_authorized_users fst]. apply emails_of_spec.
    now exists first, rest.
Qed.

Lemma X15_the_admin_is_listed :
  exists values first rest,
    Fetched allowlist_sheet = Fetched values
    /\ In (first :: rest) values
    /\ Py.strip first <> ""
    /\ Py.lower (Py.strip first) = Py.lower "ADMIN@stonybrook.EDU".
Proof.
  apply (proj1 (X15_authorized_iff_listed (Fetched allowlist_sheet)
                  "ADMIN@stonybrook.EDU" eq_refl eq_refl)).
  reflexivity.
Defined.

Example allowlist_examples :
  fst (get_authorized_users (Fetched allowlist_sheet))
    = ["admin@stonybrook.edu"; "user@stonybrook.edu"]
  /\ check_user_authorization (Fetched allowlist_sheet) "ADMIN@stonybrook.EDU" = true
  /\ check_user_authorization (Fetched allowlist_sheet) " admin@stonybrook.edu" = false
  /\ check_user_authorization (FetchFails TransportError) "admin@stonybrook.edu" = false
  /\ check_user_authorization NoService "admin@stonybrook.edu" = false.
Proof. repeat split; reflexivity. Qed.

(** ** The search of [main] *)
Lemma lookups_length fs path : forall anchor ids,
  first_listed_chain fs anchor path ids ->
  List.length (lookups anchor path ids) = List.length path.
Proof.
  induction path as [|seg path IH]; intros anchor [|id ids] H; simpl in H;
    try contradiction; [reflexivity|].
  cbn [lookups List.length]. f_equal. apply (IH id ids), H.
Qed.

(** X16.  For a root id, an accelerometer type and a participant id that
    are quotable, and a store whose ids are quotable: the search of [main]
    never raises, never changes a file and sends only list requests.  When it stops, at most the four requests of
    the folder walk were sent, none for a file, and the last message shown
    is one of its two errors; when it goes on, exactly seven requests were
    sent and the folder it found is not the empty id and ends a chain of
    first-listed folders [type / id / output_id / results]. *)
Theorem X16_search_outcome root accel pid w :
  quotable root = true ->
  quotable accel = true ->
  quotable pid = true ->
  Forall (fun f => quotable (f_id f) = true) (files w) ->
  exists r w' rs,
    search_files root accel pid w = (inr r, w')
    /\ files w' = files w
    /\ calls w' = (calls w ++ rs)%list
    /\ Forall (fun q => is_list_request q = true) rs
    /\ match r with
       | None =>
           (List.length rs <= 4)%nat
           /\ (last (errors w') "" =
                 "Root folder ID not configured. Please contact the administrator."
               \/ last (errors w') "" =
                    "❌ Could not find folder for " ++ accel ++ "/" ++ pid)
       | Some found =>
           List.length rs = 7%nat
           /\ target_folder_id found <> ""
           /\ exists ids,
                first_listed_chain (files w) root (path_components accel pid) ids
                /\ last ids root = target_folder_id found
       end.
Proof.
  intros _ _ _ _.
  unfold search_files. destruct root as [|c root].
  - eexists None, _, []. split; [reflexivity|]. rewrite app_nil_r.
    repeat split; auto. left. cbn [shown errors]. apply last_last.
  - set (anchor := String c root). fold (path_components accel pid).
    destruct (resolve_outcome (path_components accel pid) anchor w)
      as (r & w1 & rs & Hrun & Hfiles & Hcalls & Hlist & Hlen & Hsome).
    unfold bind at 1. rewrite Hrun.
    assert (Hstop : exists w',
              (st_error ("❌ Could not find folder for " ++ accel ++ "/" ++ pid) ;;;
               @ret (option Found) None) w1 = (inr None, w')
              /\ files w' = files w /\ calls w' = (calls w ++ rs)%list
              /\ last (errors w') "" =
                 "❌ Could not find folder for " ++ accel ++ "/" ++ pid).
    { eexists. split; [reflexivity|]. cbn [shown files calls errors].
      repeat split; auto. apply last_last. }
    destruct r as [[|d id]|].
    + destruct Hstop as (w' & Hs & Hf & Hc & Hl).
      exists None, w', rs. split; [exact Hs|]. repeat split; auto.
    + set (fid := String d id) in *.
      destruct (Hsome fid eq_refl) as (ids & Hchain & Hlast & Hrs & _).
      destruct (find_file_outcome fid CSV_FILENAME w1)
        as (r1 & w2 & Hrun1 & Hfiles1 & Hcalls1 & _).
      destruct (find_file_outcome fid PDF_FILENAME_1 w2)
        as (r2 & w3 & Hrun2 & Hfiles2 & Hcalls2 & _).
      destruct (find_file_outcome fid PDF_FILENAME_2 w3)
        as (r3 & w4 & Hrun3 & Hfiles3 & Hcalls3 & _).
      exists (Some (mkFound fid r1 r2 r3)), w4,
        (rs ++ [FilesList (file_query CSV_FILENAME fid) 10;
                FilesList (file_query PDF_FILENAME_1 fid) 10;
                FilesList (file_query PDF_FILENAME_2 fid) 10])%list.
      split.
      { unfold bind. rewrite Hrun1, Hrun2, Hrun3. reflexivity. }
      split; [congruence|].
      split.
      { rewrite Hcalls3, Hcalls2, Hcalls1, Hcalls. now rewrite <- !app_assoc. }
      split.
      { apply Forall_app. split; [exact Hlist|]. repeat constructor. }
      cbn [target_folder_id]. split.
      { rewrite length_app, Hrs, (lookups_length _ _ _ _ Hchain). reflexivity. }
      split; [discriminate|]. now exists ids.
    + destruct Hstop as (w' & Hs & Hf & Hc & Hl).
      exists None, w', rs. split; [exact Hs|]. repeat split; auto.
Qed.

Example search_of_the_participant :
  let '(r, w') := search_files "R" "ActiGraph" "PID123" (drive participant_tree []) in
  r = inr (Some (mkFound "C" (Some (csv_file "o" CSV_FILENAME "C" "night,onset"))
                   None None))
  /\ List.length (calls w') = 7%nat /\ errors w' = [].
Proof. vm_compute. repeat split. Qed.

Lemma X16_search_of_pid123 :
  exists r w' rs,
    search_files "R" "ActiGraph" "PID123" (drive participant_tree [])
      = (inr r, w')
    /\ files w' = files (drive participant_tree [])
    /\ calls w' = (calls (drive participant_tree []) ++ rs)%list
    /\ Forall (fun q => is_list_request q = true) rs
    /\ match r with
       | None =>
           (List.length rs <= 4)%nat
           /\ (last (errors w') "" =
                 "Root folder ID not configured. Please contact the administrator."
               \/ last (errors w') "" =
                    "❌ Could not find folder for " ++ "ActiGraph" ++ "/" ++ "PID123")
       | Some found =>
           List.length rs = 7%nat
           /\ target_folder_id found <> ""
           /\ exists ids,
                first_listed_chain (files (drive participant_tree [])) "R"
                  (path_components "ActiGraph" "PID123") ids
                /\ last ids "R" = target_folder_id found
       end.
Proof.
  apply (X16_search_outcome "R" "ActiGraph" "PID123" (drive participant_tree [])).
  - reflexivity.
  - reflexivity.
  - reflexivity.
  - repeat constructor.
Defined.
